(** * io-Monitor: the pin-state monitoring engine

    A shallow embedding of [src/gpio_monitor.py] (class [GPIOMonitor]) and of
    the parts of [src/web_server.py] that call into it, followed by the
    properties of the engine.

    Conventions of the embedding.
    - A [datetime] is the number of microseconds since 0001-01-01T00:00:00,
      a [timedelta] a number of microseconds; both are [Z].  The range checks
      that CPython performs ([OverflowError]) are written out.
    - [isoformat] followed by [fromisoformat] is the identity on naive
      datetimes, so a history entry stores its timestamp as a datetime.
    - [timedelta.total_seconds()] converts a timedelta to a float number of
      seconds; an entry stores the timedelta itself (microseconds), the
      float rounding is outside the model.
    - A logic level is what [GPIO.input] returns, [GPIO.LOW] (0) or
      [GPIO.HIGH] (1).
    - Python dicts are [gmap]s; a [defaultdict] creates the key on a read
      through [d[k]], and that creation is written out where the source
      reads so.
    - One loop body of [_monitor_loop] (one line, one reading) is one atomic
      step; a tick is the fold of the loop body over [pins_to_monitor]. *)

From stdpp Require Import gmap strings list fin_maps pretty.
From Stdlib Require Import ZArith QArith Lia Sorted.

Local Open Scope Z_scope.

(** ** Python values the model needs *)

Inductive exn : Type :=
  | FileNotFoundError
  | JSONDecodeError
  | OSError
  | TypeError
  | OverflowError
  | AttributeError (name : string).

Inductive result (A : Type) : Type :=
  | Ok (a : A)
  | Raise (e : exn).
Arguments Ok {A} a.
Arguments Raise {A} e.

Global Instance result_bind : MBind result := fun A B k r =>
  match r with
  | Ok a => k a
  | Raise e => Raise e
  end.

Global Instance result_ret : MRet result := fun A a => Ok a.

(** ** datetime and timedelta *)

Module Datetime.

Definition us_per_second : Z := 1000000.
Definition us_per_hour : Z := 3600 * us_per_second.
Definition us_per_day : Z := 24 * us_per_hour.

(** [date.max.toordinal()] is 3652059: the days from 0001-01-01 to
    9999-12-31 inclusive. *)
Definition max_ordinal : Z := 3652059.

(** A datetime is valid when its year lies in [MINYEAR, MAXYEAR]. *)
Definition valid (t : Z) : bool :=
  (0 <=? t) && (t <? max_ordinal * us_per_day).

(** [timedelta] rejects a magnitude of more than 999999999 days. *)
Definition max_delta_days : Z := 999999999.

Definition delta_valid (d : Z) : bool :=
  (- max_delta_days <=? d / us_per_day) && (d / us_per_day <=? max_delta_days).

(** The argument of [timedelta(hours=...)]: an integer, or a value that
    is not a number (a string or null from a socket payload). *)
Inductive hours_arg : Type :=
  | HInt (h : Z)
  | HNotNumber.

(** [timedelta(hours=h)] *)
Definition timedelta_hours (h : hours_arg) : result Z :=
  match h with
  | HNotNumber => Raise TypeError
  | HInt h =>
      let d := h * us_per_hour in
      if delta_valid d then Ok d else Raise OverflowError
  end.

(** [t - d] for a datetime [t] and a timedelta [d] *)
Definition sub_delta (t d : Z) : result Z :=
  if valid (t - d) then Ok (t - d) else Raise OverflowError.

(** [t1 - t2] for two datetimes: a timedelta, always in range *)
Definition diff (t1 t2 : Z) : Z := t1 - t2.

End Datetime.

(** ** Levels, history entries, the bounded deque *)

Inductive level : Type := LOW | HIGH.

Global Instance level_eq_dec : EqDecision level.
Proof. solve_decision. Defined.

(** [1 - old_state] of the simulated source *)
Definition flip (l : level) : level :=
  match l with LOW => HIGH | HIGH => LOW end.

(** The dict appended at a falling edge:
    [{'timestamp': current_time.isoformat(), 'duration': duration}]. *)
Record entry : Type := Entry {
  timestamp : Z;
  duration : Z
}.

Global Instance entry_eq_dec : EqDecision entry.
Proof. solve_decision. Defined.

(** The interval an entry stands for: it ends at the recorded timestamp and
    began [duration] before it. *)
Definition interval_end (e : entry) : Z := timestamp e.
Definition interval_start (e : entry) : Z := timestamp e - duration e.

Module Deque.

(** [collections.deque(maxlen=n)]: [append] adds on the right and, when
    the length then exceeds [maxlen], pops on the left. *)
Definition append {A : Type} (maxlen : nat) (d : list A) (x : A) : list A :=
  let d' := d ++ [x] in
  if (maxlen <? length d')%nat then tail d' else d'.

Definition clear {A : Type} (d : list A) : list A := [].

End Deque.

Definition history_maxlen : nat := 1000.

(** ** Configuration *)

(** The dict that [json.load] returns, read through [.get(key, default)]:
    each key is present or absent. *)
Record config : Type := Config {
  cfg_pins_to_monitor : option (list Z);
  cfg_update_interval : option Q;
  cfg_history_duration_minutes : option Z;
  cfg_pin_labels : option (gmap string string)
}.

(** [list(range(2, 28))] *)
Definition range_2_28 : list Z := seqZ 2 26.

(** The dict of the [except FileNotFoundError] branch. *)
Definition default_config : config :=
  {| cfg_pins_to_monitor := Some range_2_28;
     cfg_update_interval := Some (1 # 10)%Q;
     cfg_history_duration_minutes := Some 60;
     cfg_pin_labels := Some ∅ |}.

(** What [open(config_file)] and [json.load(f)] meet. *)
Inductive config_file : Type :=
  | FileMissing
  | FileUnreadable
  | FileMalformed
  | FileParsed (c : config).

(** The body of the [try]: [open] raises [FileNotFoundError] on a missing
    file and another [OSError] on an unreadable one, [json.load] raises
    [JSONDecodeError] on text that is not JSON. *)
Definition open_and_load (f : config_file) : result config :=
  match f with
  | FileMissing => Raise FileNotFoundError
  | FileUnreadable => Raise OSError
  | FileMalformed => Raise JSONDecodeError
  | FileParsed c => Ok c
  end.

(** [GPIOMonitor._load_config]: only [FileNotFoundError] is caught. *)
Definition _load_config (f : config_file) : result config :=
  match open_and_load f with
  | Raise FileNotFoundError => Ok default_config
  | r => r
  end.

(** ** The monitor state *)

Record monitor : Type := Monitor {
  pins_to_monitor : list Z;
  update_interval : Q;
  history_duration : Z;
  pin_states : gmap Z level;
  pin_labels : gmap string string;
  transition_counts : gmap Z Z;
  last_transition_time : gmap Z Z;
  high_duration_history : gmap Z (list entry);
  current_high_start : gmap Z Z
}.

Definition set_pin_states (f : gmap Z level → gmap Z level) (m : monitor) : monitor :=
  {| pins_to_monitor := pins_to_monitor m;
     update_interval := update_interval m;
     history_duration := history_duration m;
     pin_states := f (pin_states m);
     pin_labels := pin_labels m;
     transition_counts := transition_counts m;
     last_transition_time := last_transition_time m;
     high_duration_history := high_duration_history m;
     current_high_start := current_high_start m |}.

Definition set_transition_counts (f : gmap Z Z → gmap Z Z) (m : monitor) : monitor :=
  {| pins_to_monitor := pins_to_monitor m;
     update_interval := update_interval m;
     history_duration := history_duration m;
     pin_states := pin_states m;
     pin_labels := pin_labels m;
     transition_counts := f (transition_counts m);
     last_transition_time := last_transition_time m;
     high_duration_history := high_duration_history m;
     current_high_start := current_high_start m |}.

Definition set_last_transition_time (f : gmap Z Z → gmap Z Z) (m : monitor) : monitor :=
  {| pins_to_monitor := pins_to_monitor m;
     update_interval := update_interval m;
     history_duration := history_duration m;
     pin_states := pin_states m;
     pin_labels := pin_labels m;
     transition_counts := transition_counts m;
     last_transition_time := f (last_transition_time m);
     high_duration_history := high_duration_history m;
     current_high_start := current_high_start m |}.

Definition set_high_duration_history
    (f : gmap Z (list entry) → gmap Z (list entry)) (m : monitor) : monitor :=
  {| pins_to_monitor := pins_to_monitor m;
     update_interval := update_interval m;
     history_duration := history_duration m;
     pin_states := pin_states m;
     pin_labels := pin_labels m;
     transition_counts := transition_counts m;
     last_transition_time := last_transition_time m;
     high_duration_history := f (high_duration_history m);
     current_high_start := current_high_start m |}.

Definition set_current_high_start (f : gmap Z Z → gmap Z Z) (m : monitor) : monitor :=
  {| pins_to_monitor := pins_to_monitor m;
     update_interval := update_interval m;
     history_duration := history_duration m;
     pin_states := pin_states m;
     pin_labels := pin_labels m;
     transition_counts := transition_counts m;
     last_transition_time := last_transition_time m;
     high_duration_history := high_duration_history m;
     current_high_start := f (current_high_start m) |}.

(** Reads with a default: [pin_states.get(pin, 0)], [transition_counts[pin]]
    and [high_duration_history[pin]] on the [defaultdict]s. *)
Definition level_of (m : monitor) (pin : Z) : level :=
  default LOW (pin_states m !! pin).

Definition count_of (m : monitor) (pin : Z) : Z :=
  default 0 (transition_counts m !! pin).

Definition history_of (m : monitor) (pin : Z) : list entry :=
  default [] (high_duration_history m !! pin).

(** One value of the dict that [get_pin_status] returns. *)
Record pin_status : Type := PinStatus {
  ps_state : level;
  ps_label : string;
  ps_transitions : Z;
  ps_last_transition : Z;
  ps_current_high_duration : Z;
  ps_high_duration_history : list entry
}.

(** What the process writes out: log records, and the events that the web
    server sends to its clients ([socketio.server.emit]). *)
Inductive effect : Type :=
  | LogError (pin : Z)
  | LogDebug (pin : Z) (old_state new_state : level)
  | LogInfo (msg : string)
  | Emit (event : string) (payload : gmap string pin_status).

(** ** Setup *)

(** [_setup_simulation]: the [i]-th loop iteration draws
    [random.choice([0, 1])] and reads the clock. *)
Fixpoint setup_simulation_from (i : nat) (choice : nat → level) (clock : nat → Z)
    (pins : list Z) (m : monitor) : monitor :=
  match pins with
  | [] => m
  | pin :: rest =>
      let m1 := set_pin_states <[pin := choice i]> m in
      let m2 := set_last_transition_time <[pin := clock i]> m1 in
      setup_simulation_from (S i) choice clock rest m2
  end.

Definition _setup_simulation (choice : nat → level) (clock : nat → Z)
    (m : monitor) : monitor :=
  setup_simulation_from 0 choice clock (pins_to_monitor m) m.

(** [_setup_gpio]: [GPIO.setup] and [GPIO.input] succeed with a level or
    raise.  The handler then calls [self.logger], which [__init__] assigns
    only after setup, so the handler itself raises [AttributeError]. *)
Fixpoint setup_gpio_from (i : nat) (probe : nat → option level) (clock : nat → Z)
    (pins : list Z) (m : monitor) : result monitor :=
  match pins with
  | [] => Ok m
  | pin :: rest =>
      match probe i with
      | Some l =>
          let m1 := set_pin_states <[pin := l]> m in
          let m2 := set_last_transition_time <[pin := clock i]> m1 in
          setup_gpio_from (S i) probe clock rest m2
      | None => Raise (AttributeError "logger")
      end
  end.

Definition _setup_gpio (probe : nat → option level) (clock : nat → Z)
    (m : monitor) : result monitor :=
  setup_gpio_from 0 probe clock (pins_to_monitor m) m.

(** The line source chosen at import time ([GPIO_AVAILABLE]). *)
Inductive line_source : Type :=
  | Hardware (probe : nat → option level)
  | Simulated (choice : nat → level).

(** [GPIOMonitor.__init__] *)
Definition GPIOMonitor_init (f : config_file) (src : line_source)
    (clock : nat → Z) : result monitor :=
  cfg ← _load_config f;
  let m := {| pins_to_monitor := default range_2_28 (cfg_pins_to_monitor cfg);
              update_interval := default (1 # 10)%Q (cfg_update_interval cfg);
              history_duration := default 60 (cfg_history_duration_minutes cfg);
              pin_states := ∅;
              pin_labels := default ∅ (cfg_pin_labels cfg);
              transition_counts := ∅;
              last_transition_time := ∅;
              high_duration_history := ∅;
              current_high_start := ∅ |} in
  match src with
  | Hardware probe => _setup_gpio probe clock m
  | Simulated choice => Ok (_setup_simulation choice clock m)
  end.

(** ** The sampling loop *)

(** What one loop iteration gets from the line source: with hardware, the
    level [GPIO.input(pin)] returns or an exception; in simulation, whether
    [random.random() < 0.01]. *)
Inductive sample : Type :=
  | HwRead (l : level)
  | HwError
  | SimDraw (flips : bool).

(** [new_state], or [None] when the read raised. *)
Definition read_level (s : sample) (old_state : level) : option level :=
  match s with
  | HwRead l => Some l
  | HwError => None
  | SimDraw true => Some (flip old_state)
  | SimDraw false => Some old_state
  end.

(** The branch of a falling edge (lines 133-140). *)
Definition falling_edge (current_time pin : Z) (m : monitor) : monitor :=
  match current_high_start m !! pin with
  | Some start =>
      let duration := Datetime.diff current_time start in
      let m1 :=
        set_high_duration_history
          (λ h, <[pin := Deque.append history_maxlen (default [] (h !! pin))
                           (Entry current_time duration)]> h) m in
      set_current_high_start (delete pin) m1
  | None => m
  end.

(** The branch of a rising edge (lines 142-143). *)
Definition rising_edge (current_time pin : Z) (m : monitor) : monitor :=
  set_current_high_start <[pin := current_time]> m.

(** The branch of a state transition (lines 127-145). *)
Definition transition (current_time pin : Z) (old_state new_state : level)
    (m : monitor) : monitor * list effect :=
  let m1 := set_pin_states <[pin := new_state]> m in
  let m2 := set_transition_counts
              (λ c, <[pin := default 0 (c !! pin) + 1]> c) m1 in
  let m3 := set_last_transition_time <[pin := current_time]> m2 in
  let m4 :=
    match old_state, new_state with
    | HIGH, LOW => falling_edge current_time pin m3
    | LOW, HIGH => rising_edge current_time pin m3
    | _, _ => m3
    end in
  (m4, [LogDebug pin old_state new_state]).

(** The body of [for pin in self.pins_to_monitor] in [_monitor_loop]. *)
Definition monitor_pin (current_time : Z) (m : monitor) (pin : Z) (s : sample)
    : monitor * list effect :=
  let old_state := level_of m pin in
  match read_level s old_state with
  | None => (m, [LogError pin])
  | Some new_state =>
      if decide (new_state ≠ old_state)
      then transition current_time pin old_state new_state m
      else (m, [])
  end.

(** The [for] loop over a work list of lines and their samples. *)
Fixpoint tick_on (current_time : Z) (m : monitor) (work : list (Z * sample))
    : monitor * list effect :=
  match work with
  | [] => (m, [])
  | (pin, s) :: rest =>
      let '(m1, eff1) := monitor_pin current_time m pin s in
      let '(m2, eff2) := tick_on current_time m1 rest in
      (m2, eff1 ++ eff2)
  end.

(** The work list of a tick: the [i]-th iteration reads [sampler i]. *)
Definition work_list (m : monitor) (sampler : nat → sample) : list (Z * sample) :=
  imap (λ i pin, (pin, sampler i)) (pins_to_monitor m).

(** One iteration of [while self.monitoring]. *)
Definition tick (current_time : Z) (m : monitor) (sampler : nat → sample)
    : monitor * list effect :=
  tick_on current_time m (work_list m sampler).

(** ** Queries *)

(** [l[-n:]] *)
Definition last_n {A : Type} (n : nat) (l : list A) : list A :=
  drop (length l - n) l.

(** The body of the loop of [get_pin_status]. Reading the two
    [defaultdict]s creates the missing keys. *)
Definition status_of_pin (current_time : Z) (m : monitor) (pin : Z)
    : monitor * pin_status :=
  let current_high_duration :=
    match current_high_start m !! pin with
    | Some start =>
        if decide (pin_states m !! pin = Some HIGH)
        then Datetime.diff current_time start
        else 0
    | None => 0
    end in
  let m1 := set_transition_counts
              (λ c, <[pin := default 0 (c !! pin)]> c) m in
  let m2 := set_high_duration_history
              (λ h, <[pin := default [] (h !! pin)]> h) m1 in
  (m2,
   {| ps_state := level_of m pin;
      ps_label := default ("GPIO " +:+ pretty pin) (pin_labels m !! pretty pin);
      ps_transitions := count_of m pin;
      ps_last_transition := default current_time (last_transition_time m !! pin);
      ps_current_high_duration := current_high_duration;
      ps_high_duration_history := last_n 50 (history_of m pin) |}).

Fixpoint status_loop (current_time : Z) (pins : list Z) (m : monitor)
    (status : gmap string pin_status) : monitor * gmap string pin_status :=
  match pins with
  | [] => (m, status)
  | pin :: rest =>
      let '(m1, ps) := status_of_pin current_time m pin in
      status_loop current_time rest m1 (<[pretty pin := ps]> status)
  end.

(** [get_pin_status] *)
Definition get_pin_status (current_time : Z) (m : monitor)
    : monitor * gmap string pin_status :=
  status_loop current_time (pins_to_monitor m) m ∅.

(** [get_transition_summary] *)
Definition get_transition_summary (m : monitor) : gmap Z Z :=
  transition_counts m.

(** The body of the loop of [reset_counters]:
    [self.high_duration_history[pin].clear()]. *)
Definition clear_history (acc : monitor) (pin : Z) : monitor :=
  set_high_duration_history
    (λ h, <[pin := Deque.clear (default [] (h !! pin))]> h) acc.

(** [reset_counters] *)
Definition reset_counters (m : monitor) : monitor * list effect :=
  let m1 := set_transition_counts (λ _, ∅) m in
  let m2 := foldl clear_history m1 (pins_to_monitor m) in
  (m2, [LogInfo "All counters reset"]).

(** [get_pin_history]; [now] is what [datetime.now()] returns. *)
Definition get_pin_history (now : Z) (m : monitor) (pin : Z)
    (hours : Datetime.hours_arg) : result (list entry) :=
  match high_duration_history m !! pin with
  | None => Ok []
  | Some d =>
      delta ← Datetime.timedelta_hours hours;
      cutoff_time ← Datetime.sub_delta now delta;
      Ok (filter (λ e, cutoff_time ≤ timestamp e) d)
  end.

(** ** The web server's side of the change notification *)

(** The names an instance of [GPIOMonitor] answers to: the methods of the
    class and the attributes [__init__] assigns. *)
Definition GPIOMonitor_attributes : list string :=
  [ "__init__"; "_load_config"; "_setup_gpio"; "_setup_simulation";
    "start_monitoring"; "stop_monitoring"; "_monitor_loop"; "get_pin_status";
    "get_transition_summary"; "reset_counters"; "get_pin_history";
    "config"; "pins_to_monitor"; "update_interval"; "history_duration";
    "pin_states"; "pin_labels"; "transition_counts"; "last_transition_time";
    "high_duration_history"; "current_high_start"; "monitoring";
    "monitor_thread"; "logger" ].

Definition GPIOMonitor_getattr (name : string) : result unit :=
  if decide (name ∈ GPIOMonitor_attributes) then Ok ()
  else Raise (AttributeError name).

Record web_server : Type := WebServer {
  gpio_monitor : monitor;
  update_running : bool
}.

(** [WebServer.__init__], as far as the monitor is concerned: it builds the
    monitor and registers [_on_gpio_state_change] through
    [set_state_change_callback]. *)
Definition WebServer_init (f : config_file) (src : line_source)
    (clock : nat → Z) : result web_server :=
  m ← GPIOMonitor_init f src clock;
  _ ← GPIOMonitor_getattr "set_state_change_callback";
  Ok {| gpio_monitor := m; update_running := false |}.

(** [WebServer._on_gpio_state_change] *)
Definition _on_gpio_state_change (now : Z) (ws : web_server)
    (pin : Z) (new_state old_state : level) : web_server * list effect :=
  let '(m, gpio_data) := get_pin_status now (gpio_monitor ws) in
  ({| gpio_monitor := m; update_running := update_running ws |},
   [LogInfo "CALLBACK RECEIVED"; Emit "gpio_update" gpio_data;
    LogInfo "SOCKETIO EMIT SENT"]).

(** ** Runs of the engine *)

(** An edge as [_monitor_loop] logs it, with the time of its tick. *)
Record edge : Type := Edge {
  e_time : Z;
  e_pin : Z;
  e_old : level;
  e_new : level
}.

Global Instance edge_eq_dec : EqDecision edge.
Proof. solve_decision. Defined.

Definition edges_of (current_time : Z) (eff : list effect) : list edge :=
  omap (λ e, match e with
             | LogDebug pin o n => Some (Edge current_time pin o n)
             | _ => None
             end) eff.

(** The steps that change the monitor: one loop body of the sampler, a
    status snapshot, a reset. *)
Inductive op : Type :=
  | OpSample (current_time : Z) (pin : Z) (s : sample)
  | OpStatus (current_time : Z)
  | OpReset.

Definition apply_op (st : monitor * list edge) (o : op) : monitor * list edge :=
  match o with
  | OpSample t pin s =>
      let '(m', eff) := monitor_pin t st.1 pin s in (m', st.2 ++ edges_of t eff)
  | OpStatus t => ((get_pin_status t st.1).1, st.2)
  | OpReset => ((reset_counters st.1).1, st.2)
  end.

(** The state and the log of edges after a sequence of steps. *)
Definition run (m0 : monitor) (ops : list op) : monitor * list edge :=
  foldl apply_op (m0, []) ops.

(** The most recent edge of a line. *)
Definition last_edge (pin : Z) (log : list edge) : option edge :=
  last (filter (λ e, e_pin e = pin) log).

(** A tick as a sequence of steps. *)
Definition tick_ops (current_time : Z) (work : list (Z * sample)) : list op :=
  map (λ w, OpSample current_time w.1 w.2) work.

(** ** Predicates over states, and example inputs *)


(** A pending high start is the time of the line's latest edge, which is a
    rising one, and the line is high; a high line without a pending start
    has been high since setup and has logged no edge. *)
Definition pending_invariant (m0 m : monitor) (log : list edge) : Prop :=
  ∀ pin,
    (∀ start, current_high_start m !! pin = Some start →
              last_edge pin log = Some (Edge start pin LOW HIGH)
              ∧ pin_states m !! pin = Some HIGH)
    ∧ (level_of m pin = HIGH → current_high_start m !! pin = None →
       level_of m0 pin = HIGH ∧ last_edge pin log = None).

(** Two monitors that [get_pin_status] cannot tell apart: they differ at
    most in keys that a [defaultdict] read has created. *)
Definition status_equiv (m1 m : monitor) : Prop :=
  pin_states m1 = pin_states m
  ∧ pin_labels m1 = pin_labels m
  ∧ last_transition_time m1 = last_transition_time m
  ∧ current_high_start m1 = current_high_start m
  ∧ (∀ pin, count_of m1 pin = count_of m pin)
  ∧ (∀ pin, history_of m1 pin = history_of m pin).

(** A configuration that monitors line 17 only. *)
Definition example_config : config :=
  {| cfg_pins_to_monitor := Some [17];
     cfg_update_interval := None;
     cfg_history_duration_minutes := None;
     cfg_pin_labels := None |}.

(** Midnight of 2026-11-04, and times of that day. *)
Definition example_day : Z := 739923 * Datetime.us_per_day.

(** [h:m:s] on that day. *)
Definition at_time (h m s : Z) : Z :=
  example_day + h * Datetime.us_per_hour
  + m * 60 * Datetime.us_per_second + s * Datetime.us_per_second.

(** The monitor built from it when line 17 reads [l] at setup, at midnight. *)
Definition example_monitor (l : level) : monitor :=
  {| pins_to_monitor := [17];
     update_interval := (1 # 10)%Q;
     history_duration := 60;
     pin_states := {[17 := l]};
     pin_labels := ∅;
     transition_counts := ∅;
     last_transition_time := {[17 := example_day]};
     high_duration_history := ∅;
     current_high_start := ∅ |}.

(** The effects that reach the clients of the web server. *)
Definition is_emit (e : effect) : Prop :=
  match e with
  | Emit _ _ => True
  | _ => False
  end.

(** Line 17 goes high at 10:00:00 and low at 10:30:00. *)
Definition example_ops : list op :=
  [OpSample (at_time 10 0 0) 17 (HwRead HIGH);
   OpSample (at_time 10 30 0) 17 (HwRead LOW)].

(** ** Further predicates over runs *)

(** The logged edges of one line, oldest first. *)
Definition edges_for (pin : Z) (log : list edge) : list edge :=
  filter (λ e, e_pin e = pin) log.

(** A sequence of edges of one line that starts from level [l]: each edge
    leaves the level the previous one reached, and reaches another one. *)
Fixpoint alternating (l : level) (es : list edge) : Prop :=
  match es with
  | [] => True
  | e :: rest => e_old e = l ∧ e_new e ≠ l ∧ alternating (e_new e) rest
  end.

(** The level a sequence of edges ends at. *)
Definition final_level (l : level) (es : list edge) : level :=
  foldl (λ _ e, e_new e) l es.

(** What the run has recorded of a line's level and last transition. *)
Definition tracks_edges (m0 m : monitor) (log : list edge) : Prop :=
  ∀ pin,
    match last_edge pin log with
    | Some e =>
        pin_states m !! pin = Some (e_new e)
        ∧ last_transition_time m !! pin = Some (e_time e)
    | None =>
        pin_states m !! pin = pin_states m0 !! pin
        ∧ last_transition_time m !! pin = last_transition_time m0 !! pin
    end.

(** The logged edges of every line alternate from the line's level at the
    start, and the stored level is the one they end at. *)
Definition edges_alternate (m0 m : monitor) (log : list edge) : Prop :=
  ∀ pin,
    alternating (level_of m0 pin) (edges_for pin log)
    ∧ level_of m pin = final_level (level_of m0 pin) (edges_for pin log).

(** The intervals that a line's edges complete, read off the log alone: a
    rising edge opens an interval, the next falling edge closes it; a
    falling edge with no interval open closes nothing. *)
Definition replay_step (st : option Z * list entry) (e : edge)
    : option Z * list entry :=
  match e_old e, e_new e with
  | HIGH, LOW =>
      (None,
       match st.1 with
       | Some start => st.2 ++ [Entry (e_time e) (e_time e - start)]
       | None => st.2
       end)
  | LOW, HIGH => (Some (e_time e), st.2)
  | _, _ => st
  end.

Definition replay (es : list edge) : option Z * list entry :=
  foldl replay_step (None, []) es.

(** The state of a line agrees with the replay of its logged edges. *)
Definition agrees_with_replay (m : monitor) (log : list edge) : Prop :=
  ∀ pin,
    current_high_start m !! pin = (replay (edges_for pin log)).1
    ∧ history_of m pin = last_n history_maxlen (replay (edges_for pin log)).2.

(** The clock readings of the loop bodies of a run, in order. *)
Definition sample_times (ops : list op) : list Z :=
  omap (λ o, match o with
             | OpSample t _ _ => Some t
             | _ => None
             end) ops.

(** Every history buffer is in the order of its timestamps, and no entry is
    later than any of the clock readings [ts]. *)
Definition history_sorted_before (m : monitor) (ts : list Z) : Prop :=
  ∀ pin,
    StronglySorted Z.le (timestamp <$> history_of m pin)
    ∧ (∀ e t, e ∈ history_of m pin → t ∈ ts → timestamp e ≤ t).

(** The configuration of a monitor and the lines it stores something for
    are those of [m0]. *)
Definition keeps_configuration (m0 m : monitor) : Prop :=
  pins_to_monitor m = pins_to_monitor m0
  ∧ update_interval m = update_interval m0
  ∧ history_duration m = history_duration m0
  ∧ pin_labels m = pin_labels m0
  ∧ (∀ pin, is_Some (pin_states m0 !! pin) → is_Some (pin_states m !! pin))
  ∧ (∀ pin, is_Some (last_transition_time m0 !! pin) →
            is_Some (last_transition_time m !! pin)).

(** ** The web server's handlers *)


(** What a handler sends: the event name and its payload.  The content of a
    system summary comes from [psutil] and is not modelled. *)
Inductive ws_payload : Type :=
  | PayloadNone
  | PayloadGpio (gpio_data : gmap string pin_status)
  | PayloadSystem.

Inductive ws_event : Type :=
  | WsEmit (event : string) (payload : ws_payload).

Definition event_name (e : ws_event) : string :=
  match e with WsEmit name _ => name end.




(** [handle_reset_counters]: reset, then tell every client. *)
Definition handle_reset_counters (now : Z) (ws : web_server)
    : web_server * list ws_event :=
  let m1 := (reset_counters (gpio_monitor ws)).1 in
  let '(m2, gpio_data) := get_pin_status now m1 in
  ({| gpio_monitor := m2; update_running := update_running ws |},
   [WsEmit "counters_reset" PayloadNone;
    WsEmit "gpio_update" (PayloadGpio gpio_data)]).

(** [handle_connect]: the first data a client gets. *)
Definition handle_connect (now : Z) (ws : web_server)
    : web_server * list ws_event :=
  let '(m, gpio_data) := get_pin_status now (gpio_monitor ws) in
  ({| gpio_monitor := m; update_running := update_running ws |},
   [WsEmit "gpio_update" (PayloadGpio gpio_data);
    WsEmit "system_update" PayloadSystem]).

(** The state of [_background_update_loop]. *)
Record background : Type := Background {
  bg_server : web_server;
  gpio_update_counter : Z;
  system_update_counter : Z
}.

(** Where an iteration of the loop may raise: in the emit of the GPIO
    update or in the emit of the system update. *)
Inductive emit_failure : Type :=
  | FailGpioEmit
  | FailSystemEmit.

(** One iteration of [while self.update_running] in
    [_background_update_loop]; [fail] says which emit raises, if one does.
    An exception leaves the [try] at once: the counters keep the values they
    had at that point and are not incremented. *)
Definition background_iteration (now : Z) (fail : option emit_failure)
    (st : background) : background * list ws_event :=
  let ws := bg_server st in
  let g := gpio_update_counter st in
  let s := system_update_counter st in
  let after_gpio :=
    if decide (1 ≤ g) then
      let '(m, gpio_data) := get_pin_status now (gpio_monitor ws) in
      let ws' := {| gpio_monitor := m; update_running := update_running ws |} in
      match fail with
      | Some FailGpioEmit => inr ws'
      | _ => inl (ws', 0, [WsEmit "gpio_update" (PayloadGpio gpio_data)])
      end
    else inl (ws, g, []) in
  match after_gpio with
  | inr ws' =>
      ({| bg_server := ws'; gpio_update_counter := g;
          system_update_counter := s |}, [])
  | inl (ws', g', sent) =>
      if decide (10 ≤ s) then
        match fail with
        | Some FailSystemEmit =>
            ({| bg_server := ws'; gpio_update_counter := g';
                system_update_counter := s |}, sent)
        | _ =>
            ({| bg_server := ws'; gpio_update_counter := g' + 1;
                system_update_counter := 0 + 1 |},
             sent ++ [WsEmit "system_update" PayloadSystem])
        end
      else
        ({| bg_server := ws'; gpio_update_counter := g' + 1;
            system_update_counter := s + 1 |}, sent)
  end.

(** The loop over the clock readings and failures of its iterations; the
    result lists what each iteration has sent. *)
Fixpoint background_loop (inputs : list (Z * option emit_failure))
    (st : background) : background * list (list ws_event) :=
  match inputs with
  | [] => (st, [])
  | (now, fail) :: rest =>
      let '(st1, sent) := background_iteration now fail st in
      let '(st2, sents) := background_loop rest st1 in
      (st2, sent :: sents)
  end.

(** [start_background_updates] enters the loop with both counters at 0. *)
Definition background_start (ws : web_server) : background :=
  {| bg_server := ws; gpio_update_counter := 0; system_update_counter := 0 |}.

(** ** Uptime formatting ([system_info.py]) *)

(** [timedelta.days] and [timedelta.seconds] of a normalised timedelta. *)
Definition timedelta_days (d : Z) : Z := d / Datetime.us_per_day.

Definition timedelta_seconds (d : Z) : Z :=
  (d `mod` Datetime.us_per_day) / Datetime.us_per_second.

(** ['s' if n != 1 else ''] *)
Definition plural (n : Z) : string :=
  if decide (n ≠ 1) then "s" else "".

(** The list [parts] of [_format_uptime]. *)
Definition uptime_parts (uptime_delta : Z) : list string :=
  let days := timedelta_days uptime_delta in
  let hours := timedelta_seconds uptime_delta / 3600 in
  let remainder := timedelta_seconds uptime_delta `mod` 3600 in
  let minutes := remainder / 60 in
  let seconds := remainder `mod` 60 in
  let parts := [] in
  let parts :=
    if decide (0 < days)
    then parts ++ [pretty days +:+ " day" +:+ plural days] else parts in
  let parts :=
    if decide (0 < hours)
    then parts ++ [pretty hours +:+ " hour" +:+ plural hours] else parts in
  let parts :=
    if decide (0 < minutes)
    then parts ++ [pretty minutes +:+ " minute" +:+ plural minutes] else parts in
  let parts :=
    if decide (0 < seconds ∨ parts = [])
    then parts ++ [pretty seconds +:+ " second" +:+ plural seconds] else parts in
  parts.

(** [SystemInfoCollector._format_uptime] *)
Definition _format_uptime (uptime_delta : Z) : string :=
  String.concat ", " (uptime_parts uptime_delta).

(** The counters of the background loop after [j] iterations without a
    failure. *)
Definition counters_after (j : nat) : Z * Z :=
  if decide (j = 0%nat) then (0, 0) else (1, (Z.of_nat j - 1) `mod` 10 + 1).

(** The names of the events that iteration [k] (counted from 0) sends when
    no emit fails. *)
Definition names_at (k : nat) : list string :=
  (if decide (1 ≤ k)%nat then ["gpio_update"] else [])
  ++ (if decide ((1 ≤ k)%nat ∧ Z.of_nat k `mod` 10 = 0) then ["system_update"] else []).


(** The pending high start of every line is the time of the line's latest
    logged edge when that edge is a rising one, and absent otherwise. *)
Definition pending_matches_edge (m : monitor) (log : list edge) : Prop :=
  ∀ pin,
    current_high_start m !! pin
    = match last_edge pin log with
      | Some e => match e_new e with
                  | HIGH => Some (e_time e)
                  | LOW => None
                  end
      | None => None
      end.

(** * Properties *)

(** ** The bounded deque *)

Section DequeFacts.
Context {A : Type}.
Implicit Types (d : list A) (x : A) (n : nat).

Lemma deque_append_short n d x :
  (length d < n)%nat → Deque.append n d x = d ++ [x].
Proof.
  intros Hlt. unfold Deque.append. rewrite length_app. simpl.
  destruct (Nat.ltb_spec n (length d + 1)); [lia | done].
Qed.


Lemma deque_append_length n d x :
  (length d ≤ n)%nat → (length (Deque.append n d x) ≤ n)%nat.
Proof.
  intros Hle. unfold Deque.append.
  destruct (Nat.ltb_spec n (length (d ++ [x]))) as [Hlt | Hge]; [| done].
  rewrite length_app in Hlt. simpl in Hlt.
  destruct d as [| y d]; simpl in *; [lia |].
  rewrite length_app. simpl. lia.
Qed.


End DequeFacts.

(** ** How each operation changes the state *)

Lemma run_snoc m0 ops o : run m0 (ops ++ [o]) = apply_op (run m0 ops) o.
Proof. unfold run. by rewrite foldl_snoc. Qed.

Lemma tick_on_cons t m pin s rest :
  (tick_on t m ((pin, s) :: rest)).1 = (tick_on t (monitor_pin t m pin s).1 rest).1.
Proof.
  simpl. destruct (monitor_pin t m pin s) as [m1 eff1]. simpl.
  by destruct (tick_on t m1 rest).
Qed.

Lemma foldl_apply_op_sample_log t m log work :
  (foldl apply_op (m, log) (tick_ops t work)).1 = (tick_on t m work).1.
Proof.
  revert m log. induction work as [| [pin s] rest IH]; intros m log; [done |].
  rewrite tick_on_cons. simpl.
  destruct (monitor_pin t m pin s) as [m1 eff1]. simpl. apply IH.
Qed.

(** A tick is a run of loop bodies: what holds after every run holds after
    every sequence of ticks. *)
Lemma tick_is_run t m0 ops sampler :
  (tick t (run m0 ops).1 sampler).1 =
  (run m0 (ops ++ tick_ops t (work_list (run m0 ops).1 sampler))).1.
Proof.
  unfold run, tick. rewrite foldl_app.
  destruct (foldl apply_op (m0, []) ops) as [m log]. simpl.
  symmetry. apply foldl_apply_op_sample_log.
Qed.

(** Induction over the runs of the engine. *)
Lemma run_ind (P : monitor → list edge → Prop) m0 :
  P m0 [] →
  (∀ m log o, P m log → P (apply_op (m, log) o).1 (apply_op (m, log) o).2) →
  ∀ ops, P (run m0 ops).1 (run m0 ops).2.
Proof.
  intros H0 Hstep ops. induction ops as [| o ops IH] using rev_ind; [done |].
  rewrite run_snoc. destruct (run m0 ops) as [m log]. by apply Hstep.
Qed.

(** The loop body either leaves the state alone or takes the transition
    branch with a level that differs from the stored one. *)
Lemma monitor_pin_cases t m pin s :
  (((monitor_pin t m pin s).1 = m ∧ edges_of t (monitor_pin t m pin s).2 = [])
   ∨ (∃ new_state, new_state ≠ level_of m pin
        ∧ read_level s (level_of m pin) = Some new_state
        ∧ monitor_pin t m pin s = transition t pin (level_of m pin) new_state m)).
Proof.
  unfold monitor_pin. destruct (read_level s (level_of m pin)) as [n |] eqn:Hr.
  - case_decide as Hne.
    + right. by exists n.
    + left. done.
  - left. done.
Qed.

Lemma monitor_pin_read_error t m pin :
  monitor_pin t m pin HwError = (m, [LogError pin]).
Proof. done. Qed.

Lemma lookup_insert_default {V : Type} (dflt : V) (h : gmap Z V) (p pin : Z) :
  default dflt (<[p := default dflt (h !! p)]> h !! pin) = default dflt (h !! pin).
Proof.
  destruct (decide (p = pin)) as [-> | Hne].
  - by rewrite lookup_insert_eq.
  - by rewrite lookup_insert_ne.
Qed.

Lemma status_of_pin_frame t m p :
  let m' := (status_of_pin t m p).1 in
  pins_to_monitor m' = pins_to_monitor m
  ∧ pin_states m' = pin_states m
  ∧ pin_labels m' = pin_labels m
  ∧ last_transition_time m' = last_transition_time m
  ∧ current_high_start m' = current_high_start m
  ∧ high_duration_history m' = <[p := history_of m p]> (high_duration_history m)
  ∧ transition_counts m' = <[p := count_of m p]> (transition_counts m).
Proof. repeat split. Qed.

Lemma status_loop_cons t p pins m status :
  status_loop t (p :: pins) m status =
  status_loop t pins (status_of_pin t m p).1
    (<[pretty p := (status_of_pin t m p).2]> status).
Proof. done. Qed.

Lemma status_loop_frame t pins m status :
  let m' := (status_loop t pins m status).1 in
  pins_to_monitor m' = pins_to_monitor m
  ∧ pin_states m' = pin_states m
  ∧ pin_labels m' = pin_labels m
  ∧ last_transition_time m' = last_transition_time m
  ∧ current_high_start m' = current_high_start m
  ∧ (∀ pin, high_duration_history m' !! pin =
            if decide (pin ∈ pins) then Some (history_of m pin)
            else high_duration_history m !! pin)
  ∧ (∀ pin, transition_counts m' !! pin =
            if decide (pin ∈ pins) then Some (count_of m pin)
            else transition_counts m !! pin).
Proof.
  revert m status. induction pins as [| p pins IH]; intros m status.
  - simpl. repeat split; done.
  - rewrite status_loop_cons.
    destruct (status_of_pin_frame t m p) as (F1 & F2 & F3 & F4 & F5 & F6 & F7).
    set (m1 := (status_of_pin t m p).1) in *.
    set (st1 := <[pretty p := _]> status).
    destruct (IH m1 st1) as (H1 & H2 & H3 & H4 & H5 & H6 & H7).
    cbv zeta. repeat split; try congruence.
    + intros pin. rewrite H6. unfold history_of at 1. rewrite F6.
      destruct (decide (pin = p)) as [-> | Hne].
      * rewrite lookup_insert_eq. simpl.
        rewrite (decide_True (P := p ∈ p :: pins)) by left.
        by case_decide.
      * rewrite lookup_insert_ne by done.
        destruct (decide (pin ∈ pins)) as [Hin | Hnin].
        -- by rewrite decide_True by (by right).
        -- rewrite decide_False; [done |]. by intros [? | ?]%elem_of_cons.
    + intros pin. rewrite H7. unfold count_of at 1. rewrite F7.
      destruct (decide (pin = p)) as [-> | Hne].
      * rewrite lookup_insert_eq. simpl.
        rewrite (decide_True (P := p ∈ p :: pins)) by left.
        by case_decide.
      * rewrite lookup_insert_ne by done.
        destruct (decide (pin ∈ pins)) as [Hin | Hnin].
        -- by rewrite decide_True by (by right).
        -- rewrite decide_False; [done |]. by intros [? | ?]%elem_of_cons.
Qed.

Lemma get_pin_status_frame t m :
  let m' := (get_pin_status t m).1 in
  pins_to_monitor m' = pins_to_monitor m
  ∧ pin_states m' = pin_states m
  ∧ pin_labels m' = pin_labels m
  ∧ last_transition_time m' = last_transition_time m
  ∧ current_high_start m' = current_high_start m
  ∧ (∀ pin, high_duration_history m' !! pin =
            if decide (pin ∈ pins_to_monitor m) then Some (history_of m pin)
            else high_duration_history m !! pin)
  ∧ (∀ pin, transition_counts m' !! pin =
            if decide (pin ∈ pins_to_monitor m) then Some (count_of m pin)
            else transition_counts m !! pin).
Proof. apply status_loop_frame. Qed.

Lemma reset_counters_unfold m :
  (reset_counters m).1 =
  foldl clear_history (set_transition_counts (λ _, ∅) m) (pins_to_monitor m).
Proof. done. Qed.

Lemma clear_loop_frame pins acc :
  let m' := foldl clear_history acc pins in
  pins_to_monitor m' = pins_to_monitor acc
  ∧ update_interval m' = update_interval acc
  ∧ history_duration m' = history_duration acc
  ∧ pin_states m' = pin_states acc
  ∧ pin_labels m' = pin_labels acc
  ∧ transition_counts m' = transition_counts acc
  ∧ last_transition_time m' = last_transition_time acc
  ∧ current_high_start m' = current_high_start acc
  ∧ (∀ pin, high_duration_history m' !! pin =
            if decide (pin ∈ pins) then Some []
            else high_duration_history acc !! pin).
Proof.
  revert acc. induction pins as [| p pins IH]; intros acc.
  - simpl. repeat split; done.
  - simpl. destruct (IH (clear_history acc p)) as (H1 & H2 & H3 & H4 & H5 & H6 & H7 & H8 & H9).
    repeat split; try done.
    intros pin. rewrite H9. simpl.
    destruct (decide (pin ∈ pins)) as [Hin | Hnin].
    + by rewrite decide_True by (by right).
    + destruct (decide (pin = p)) as [-> | Hne].
      * rewrite lookup_insert_eq. by rewrite decide_True by left.
      * rewrite lookup_insert_ne by done.
        rewrite decide_False; [done |]. by intros [? | ?]%elem_of_cons.
Qed.

Lemma reset_counters_fields m :
  pins_to_monitor (reset_counters m).1 = pins_to_monitor m
  ∧ pin_states (reset_counters m).1 = pin_states m
  ∧ pin_labels (reset_counters m).1 = pin_labels m
  ∧ transition_counts (reset_counters m).1 = ∅
  ∧ last_transition_time (reset_counters m).1 = last_transition_time m
  ∧ current_high_start (reset_counters m).1 = current_high_start m
  ∧ (∀ pin, high_duration_history (reset_counters m).1 !! pin =
            if decide (pin ∈ pins_to_monitor m) then Some []
            else high_duration_history m !! pin).
Proof.
  rewrite reset_counters_unfold.
  destruct (clear_loop_frame (pins_to_monitor m) (set_transition_counts (λ _, ∅) m))
    as (H1 & H2 & H3 & H4 & H5 & H6 & H7 & H8 & H9).
  repeat split; done.
Qed.

(** The fields after the transition branch. *)
Lemma transition_fields t pin old new m :
  let m' := (transition t pin old new m).1 in
  pins_to_monitor m' = pins_to_monitor m
  ∧ pin_labels m' = pin_labels m
  ∧ pin_states m' = <[pin := new]> (pin_states m)
  ∧ transition_counts m' = <[pin := count_of m pin + 1]> (transition_counts m)
  ∧ last_transition_time m' = <[pin := t]> (last_transition_time m)
  ∧ current_high_start m' =
      match old, new with
      | HIGH, LOW => delete pin (current_high_start m)
      | LOW, HIGH => <[pin := t]> (current_high_start m)
      | _, _ => current_high_start m
      end
  ∧ high_duration_history m' =
      match old, new, current_high_start m !! pin with
      | HIGH, LOW, Some start =>
          <[pin := Deque.append history_maxlen (history_of m pin)
                     (Entry t (t - start))]> (high_duration_history m)
      | _, _, _ => high_duration_history m
      end.
Proof.
  unfold transition, falling_edge, rising_edge. simpl.
  destruct old, new; simpl; try (repeat split; done).
  destruct (current_high_start m !! pin) as [start |] eqn:Hs; simpl.
  - repeat split; done.
  - repeat split; try done. symmetry. by apply delete_id.
Qed.

Lemma transition_effects t pin old new m :
  (transition t pin old new m).2 = [LogDebug pin old new].
Proof. done. Qed.

(** What [__init__] leaves behind. *)
Lemma setup_simulation_fresh i choice clock pins m :
  let m' := setup_simulation_from i choice clock pins m in
  pins_to_monitor m' = pins_to_monitor m
  ∧ transition_counts m' = transition_counts m
  ∧ high_duration_history m' = high_duration_history m
  ∧ current_high_start m' = current_high_start m.
Proof.
  revert i m. induction pins as [| p pins IH]; intros i m; simpl; [done |].
  by destruct (IH (S i) (set_last_transition_time <[p := clock i]>
                           (set_pin_states <[p := choice i]> m)))
    as (-> & -> & -> & ->).
Qed.

Lemma setup_simulation_fields i choice clock pins m :
  pins_to_monitor (setup_simulation_from i choice clock pins m) = pins_to_monitor m
  ∧ update_interval (setup_simulation_from i choice clock pins m) = update_interval m
  ∧ history_duration (setup_simulation_from i choice clock pins m) = history_duration m
  ∧ pin_labels (setup_simulation_from i choice clock pins m) = pin_labels m.
Proof.
  revert i m. induction pins as [| p pins IH]; intros i m; simpl; [done |].
  by destruct (IH (S i) (set_last_transition_time <[p := clock i]>
                           (set_pin_states <[p := choice i]> m)))
    as (-> & -> & -> & ->).
Qed.

Lemma setup_gpio_fresh i probe clock pins m m' :
  setup_gpio_from i probe clock pins m = Ok m' →
  pins_to_monitor m' = pins_to_monitor m
  ∧ transition_counts m' = transition_counts m
  ∧ high_duration_history m' = high_duration_history m
  ∧ current_high_start m' = current_high_start m.
Proof.
  revert i m. induction pins as [| p pins IH]; intros i m; simpl.
  - by intros [= ->].
  - destruct (probe i) as [l |]; [| done].
    intros H. by destruct (IH _ _ H) as (-> & -> & -> & ->).
Qed.

Lemma GPIOMonitor_init_fresh f src clock m0 :
  GPIOMonitor_init f src clock = Ok m0 →
  transition_counts m0 = ∅
  ∧ high_duration_history m0 = ∅
  ∧ current_high_start m0 = ∅.
Proof.
  unfold GPIOMonitor_init. destruct (_load_config f) as [cfg | e]; [| done].
  simpl. destruct src as [probe | choice].
  - intros H. by destruct (setup_gpio_fresh _ _ _ _ _ _ H) as (_ & -> & -> & ->).
  - intros [= <-].
    match goal with
    | |- context [_setup_simulation ?c ?k ?m] =>
        destruct (setup_simulation_fresh 0 c k (pins_to_monitor m) m)
          as (_ & H1 & H2 & H3);
        unfold _setup_simulation; by rewrite H1, H2, H3
    end.
Qed.

(** ** The history buffers stay within their capacity *)







(** ** Reset *)

(** C6. [reset_counters] leaves every line with a transition count of 0 and
    every monitored line with an empty history buffer; the pending high
    starts, the levels and every other field are what they were, and so are
    the buffers of lines that are not monitored. *)
Theorem reset_counters_frame (m : monitor) :
  let m' := (reset_counters m).1 in
  (∀ pin, count_of m' pin = 0)
  ∧ (∀ pin, pin ∈ pins_to_monitor m → history_of m' pin = [])
  ∧ current_high_start m' = current_high_start m
  ∧ pin_states m' = pin_states m
  ∧ (∀ pin, level_of m' pin = level_of m pin)
  ∧ last_transition_time m' = last_transition_time m
  ∧ pin_labels m' = pin_labels m
  ∧ pins_to_monitor m' = pins_to_monitor m
  ∧ update_interval m' = update_interval m
  ∧ history_duration m' = history_duration m
  ∧ (∀ pin, pin ∉ pins_to_monitor m →
            high_duration_history m' !! pin = high_duration_history m !! pin).
Proof.
  cbv zeta. rewrite reset_counters_unfold.
  destruct (clear_loop_frame (pins_to_monitor m) (set_transition_counts (λ _, ∅) m))
    as (H1 & H2 & H3 & H4 & H5 & H6 & H7 & H8 & H9).
  repeat split; try done.
  - intros pin. unfold count_of. by rewrite H6.
  - intros pin Hin. unfold history_of. rewrite H9. by rewrite decide_True.
  - intros pin. unfold level_of. by rewrite H4.
  - intros pin Hnin. rewrite H9. by rewrite decide_False.
Qed.

(** ** One rising and one falling edge *)

Lemma monitor_pin_edge t m pin s new_state :
  read_level s (level_of m pin) = Some new_state →
  new_state ≠ level_of m pin →
  monitor_pin t m pin s = transition t pin (level_of m pin) new_state m.
Proof.
  intros Hr Hne. unfold monitor_pin. rewrite Hr. by rewrite decide_True.
Qed.

(** C3. A line at level 0 with no transition counted and an empty history
    sees a rising edge at [t0] and then a falling edge at [t1]: afterwards
    its count is 2, its history holds the one interval from [t0] to [t1] of
    duration [t1 - t0], it has no pending high start and its level is 0. *)
Theorem rising_then_falling_edge (m : monitor) (pin t0 t1 : Z) (s0 s1 : sample) :
  t0 ≤ t1 →
  level_of m pin = LOW →
  count_of m pin = 0 →
  history_of m pin = [] →
  read_level s0 LOW = Some HIGH →
  read_level s1 HIGH = Some LOW →
  let m1 := (monitor_pin t0 m pin s0).1 in
  let m2 := (monitor_pin t1 m1 pin s1).1 in
  current_high_start m1 !! pin = Some t0
  ∧ count_of m2 pin = 2
  ∧ (∃ e, history_of m2 pin = [e]
          ∧ interval_start e = t0 ∧ interval_end e = t1
          ∧ duration e = t1 - t0 ∧ 0 ≤ duration e)
  ∧ current_high_start m2 !! pin = None
  ∧ level_of m2 pin = LOW.
Proof.
  intros Hle Hlow Hcount Hhist Hr0 Hr1. cbv zeta.
  rewrite (monitor_pin_edge t0 m pin s0 HIGH) by (rewrite Hlow; done).
  rewrite Hlow.
  destruct (transition_fields t0 pin LOW HIGH m)
    as (_ & _ & Hs1 & Hc1 & _ & Hp1 & Hh1).
  set (m1 := (transition t0 pin LOW HIGH m).1) in *.
  assert (Hlev1 : level_of m1 pin = HIGH).
  { unfold level_of. by rewrite Hs1, lookup_insert_eq. }
  assert (Hpend1 : current_high_start m1 !! pin = Some t0).
  { by rewrite Hp1, lookup_insert_eq. }
  rewrite (monitor_pin_edge t1 m1 pin s1 LOW) by (rewrite Hlev1; done).
  rewrite Hlev1.
  destruct (transition_fields t1 pin HIGH LOW m1)
    as (_ & _ & Hs2 & Hc2 & _ & Hp2 & Hh2).
  set (m2 := (transition t1 pin HIGH LOW m1).1) in *.
  rewrite Hpend1 in Hh2.
  split; [done |]. split; [| split; [| split]].
  - unfold count_of. rewrite Hc2, lookup_insert_eq. simpl.
    unfold count_of. rewrite Hc1, lookup_insert_eq. simpl. lia.
  - exists (Entry t1 (t1 - t0)).
    unfold history_of at 1. rewrite Hh2, lookup_insert_eq. simpl.
    unfold history_of. rewrite Hh1. fold (history_of m pin). rewrite Hhist.
    unfold interval_start, interval_end. simpl. repeat split; lia.
  - by rewrite Hp2, lookup_delete_eq.
  - unfold level_of. by rewrite Hs2, lookup_insert_eq.
Qed.

(** ** A failed read *)

Lemma monitor_pin_other t m pin s p :
  pin ≠ p →
  let m' := (monitor_pin t m pin s).1 in
  pin_states m' !! p = pin_states m !! p
  ∧ transition_counts m' !! p = transition_counts m !! p
  ∧ last_transition_time m' !! p = last_transition_time m !! p
  ∧ current_high_start m' !! p = current_high_start m !! p
  ∧ high_duration_history m' !! p = high_duration_history m !! p.
Proof.
  intros Hne. cbv zeta.
  destruct (monitor_pin_cases t m pin s) as [[-> _] | (new & _ & _ & ->)]; [done |].
  destruct (transition_fields t pin (level_of m pin) new m)
    as (_ & _ & -> & -> & -> & -> & ->).
  rewrite !lookup_insert_ne by done. repeat split.
  - destruct (level_of m pin), new; try done.
    + by rewrite lookup_insert_ne.
    + by rewrite lookup_delete_ne.
  - destruct (level_of m pin), new, (current_high_start m !! pin); try done.
    by rewrite lookup_insert_ne.
Qed.

Lemma tick_on_skip t p work m :
  (∀ w, w ∈ work → w.1 = p → w.2 = HwError) →
  (tick_on t m work).1 = (tick_on t m (filter (λ w, w.1 ≠ p) work)).1.
Proof.
  revert m. induction work as [| [pin s] rest IH]; intros m Hfail; [done |].
  rewrite tick_on_cons.
  assert (Hrest : ∀ w, w ∈ rest → w.1 = p → w.2 = HwError).
  { intros w Hw. apply Hfail. by right. }
  destruct (decide (pin = p)) as [-> | Hne].
  - rewrite filter_cons_False by (simpl; intros Hn; by apply Hn).
    assert (s = HwError) as -> by (apply (Hfail (p, s)); [left | done]).
    rewrite monitor_pin_read_error. simpl. by apply IH.
  - rewrite filter_cons_True by done. rewrite tick_on_cons. by apply IH.
Qed.

Lemma tick_on_other t p work m :
  (∀ w, w ∈ work → w.1 ≠ p) →
  let m' := (tick_on t m work).1 in
  pin_states m' !! p = pin_states m !! p
  ∧ transition_counts m' !! p = transition_counts m !! p
  ∧ last_transition_time m' !! p = last_transition_time m !! p
  ∧ current_high_start m' !! p = current_high_start m !! p
  ∧ high_duration_history m' !! p = high_duration_history m !! p.
Proof.
  revert m. induction work as [| [pin s] rest IH]; intros m Hne; [done |].
  cbv zeta. rewrite tick_on_cons.
  destruct (IH (monitor_pin t m pin s).1) as (-> & -> & -> & -> & ->).
  { intros w Hw. apply Hne. by right. }
  apply monitor_pin_other. apply (Hne (pin, s)). left.
Qed.

(** C9. When every read of a line fails during a tick, the line's level,
    transition count, last transition time, pending high start and history
    are after the tick what they were before it (so no interval is recorded
    for it), and the tick leaves the monitor in the state in which the loop
    over the other lines alone leaves it. *)
Theorem read_error_skips_line (t : Z) (m : monitor) (sampler : nat → sample) (p : Z) :
  (∀ i, pins_to_monitor m !! i = Some p → sampler i = HwError) →
  let m' := (tick t m sampler).1 in
  pin_states m' !! p = pin_states m !! p
  ∧ transition_counts m' !! p = transition_counts m !! p
  ∧ last_transition_time m' !! p = last_transition_time m !! p
  ∧ current_high_start m' !! p = current_high_start m !! p
  ∧ high_duration_history m' !! p = high_duration_history m !! p
  ∧ m' = (tick_on t m (filter (λ w, w.1 ≠ p) (work_list m sampler))).1.
Proof.
  intros Hfail. cbv zeta. unfold tick.
  assert (Hskip : (tick_on t m (work_list m sampler)).1 =
                  (tick_on t m (filter (λ w, w.1 ≠ p) (work_list m sampler))).1).
  { apply tick_on_skip. intros [pin s] Hw Hp. simpl in *. subst pin.
    unfold work_list in Hw. apply elem_of_lookup_imap in Hw as (i & x & Heq & Hi).
    injection Heq as -> ->. by apply Hfail. }
  rewrite Hskip.
  destruct (tick_on_other t p (filter (λ w, w.1 ≠ p) (work_list m sampler)) m)
    as (H1 & H2 & H3 & H4 & H5).
  { intros w Hw. by apply list_elem_of_filter in Hw as [? _]. }
  repeat split; done.
Qed.

(** ** Pending high starts along a run *)

Lemma last_edge_snoc pin log e :
  last_edge pin (log ++ [e]) =
  if decide (e_pin e = pin) then Some e else last_edge pin log.
Proof.
  unfold last_edge. rewrite filter_app, filter_cons, filter_nil.
  case_decide.
  - by rewrite last_snoc.
  - by rewrite app_nil_r.
Qed.

Lemma level_of_high m pin :
  level_of m pin = HIGH ↔ pin_states m !! pin = Some HIGH.
Proof.
  unfold level_of. destruct (pin_states m !! pin) as [[|] |]; simpl; split; congruence.
Qed.

Lemma pending_invariant_init m0 :
  current_high_start m0 = ∅ → pending_invariant m0 m0 [].
Proof.
  intros He pin. rewrite He. split.
  - intros start. by rewrite lookup_empty.
  - done.
Qed.

Lemma pending_invariant_sample m0 m log t q s :
  pending_invariant m0 m log →
  pending_invariant m0 (monitor_pin t m q s).1
    (log ++ edges_of t (monitor_pin t m q s).2).
Proof.
  intros Hinv.
  destruct (monitor_pin_cases t m q s) as [[-> ->] | (new & Hnew & _ & ->)].
  { by rewrite app_nil_r. }
  rewrite transition_effects.
  destruct (transition_fields t q (level_of m q) new m)
    as (_ & _ & Hs & _ & _ & Hp & _).
  set (m' := (transition t q (level_of m q) new m).1) in *.
  change (edges_of t [LogDebug q (level_of m q) new])
    with [Edge t q (level_of m q) new].
  intros pin. rewrite last_edge_snoc. simpl.
  destruct (decide (q = pin)) as [-> | Hne].
  - rewrite level_of_high, Hs, Hp, lookup_insert_eq.
    destruct (level_of m pin) eqn:Hold, new; try done.
    + rewrite lookup_insert_eq. split; [| done].
      by intros start [= <-].
    + rewrite lookup_delete_eq. split; [done |]. by intros [=].
  - destruct (Hinv pin) as [H1 H2].
    assert (Hp' : current_high_start m' !! pin = current_high_start m !! pin).
    { rewrite Hp. destruct (level_of m q), new; try done.
      - by rewrite lookup_insert_ne.
      - by rewrite lookup_delete_ne. }
    rewrite level_of_high, Hs, Hp', lookup_insert_ne, <- level_of_high by done.
    done.
Qed.

Lemma pending_invariant_step m0 m log o :
  pending_invariant m0 m log →
  pending_invariant m0 (apply_op (m, log) o).1 (apply_op (m, log) o).2.
Proof.
  intros Hinv. destruct o as [t q s | t |]; cbn [apply_op fst snd].
  - pose proof (pending_invariant_sample m0 m log t q s Hinv) as H.
    by destruct (monitor_pin t m q s).
  - destruct (get_pin_status_frame t m) as (_ & Hs & _ & _ & Hp & _).
    intros pin. rewrite level_of_high, Hs, Hp, <- level_of_high. apply Hinv.
  - destruct (reset_counters_fields m) as (_ & Hs & _ & _ & _ & Hp & _).
    intros pin. rewrite level_of_high, Hs, Hp, <- level_of_high. apply Hinv.
Qed.

Lemma run_pending_invariant m0 ops :
  current_high_start m0 = ∅ →
  pending_invariant m0 (run m0 ops).1 (run m0 ops).2.
Proof.
  intros He. apply (run_ind (pending_invariant m0)).
  - by apply pending_invariant_init.
  - intros m log o. apply pending_invariant_step.
Qed.

(** ** What a snapshot shows *)

Lemma status_equiv_refl m : status_equiv m m.
Proof. repeat split. Qed.

Lemma status_of_pin_equiv t m1 m p :
  status_equiv m1 m →
  (status_of_pin t m1 p).2 = (status_of_pin t m p).2
  ∧ status_equiv (status_of_pin t m1 p).1 m.
Proof.
  intros (Hs & Hl & Ht & Hp & Hc & Hh). split.
  - unfold status_of_pin. simpl. unfold level_of.
    by rewrite Hs, Hl, Ht, Hp, Hc, Hh.
  - repeat split; simpl; try done.
    + intros pin. rewrite <- Hc. unfold count_of. simpl.
      apply lookup_insert_default.
    + intros pin. rewrite <- Hh. unfold history_of. simpl.
      apply lookup_insert_default.
Qed.

Lemma status_loop_lookup t pins m1 m status k ps :
  status_equiv m1 m →
  (status_loop t pins m1 status).2 !! k = Some ps →
  status !! k = Some ps
  ∨ (∃ p, p ∈ pins ∧ k = pretty p ∧ ps = (status_of_pin t m p).2).
Proof.
  revert m1 status. induction pins as [| p pins IH]; intros m1 status Heq.
  - simpl. by left.
  - rewrite status_loop_cons. intros Hk.
    destruct (status_of_pin_equiv t m1 m p Heq) as [Hv Heq'].
    destruct (IH _ _ Heq' Hk) as [Hst | (q & Hq & -> & ->)].
    + destruct (decide (pretty p = k)) as [<- | Hne].
      * rewrite lookup_insert_eq in Hst. injection Hst as <-.
        right. exists p. split; [left | done].
      * rewrite lookup_insert_ne in Hst by done. by left.
    + right. exists q. split; [by right | done].
Qed.

Lemma status_loop_keeps t pins m1 status k :
  is_Some (status !! k) → is_Some ((status_loop t pins m1 status).2 !! k).
Proof.
  revert m1 status. induction pins as [| p pins IH]; intros m1 status Hk; [done |].
  rewrite status_loop_cons. apply IH.
  destruct (decide (pretty p = k)) as [<- | Hne].
  - by rewrite lookup_insert_eq.
  - by rewrite lookup_insert_ne.
Qed.

Lemma status_loop_covers t pins m1 status p :
  p ∈ pins → is_Some ((status_loop t pins m1 status).2 !! pretty p).
Proof.
  revert m1 status. induction pins as [| q pins IH]; intros m1 status Hp.
  - by apply elem_of_nil in Hp.
  - rewrite status_loop_cons. apply elem_of_cons in Hp as [-> | Hp].
    + apply status_loop_keeps. by rewrite lookup_insert_eq.
    + by apply IH.
Qed.

(** The snapshot has one value per monitored line, computed from the state
    at the call. *)
Lemma get_pin_status_lookup t m pin :
  (pin ∈ pins_to_monitor m →
   (get_pin_status t m).2 !! pretty pin = Some (status_of_pin t m pin).2)
  ∧ (∀ ps, (get_pin_status t m).2 !! pretty pin = Some ps →
           pin ∈ pins_to_monitor m ∧ ps = (status_of_pin t m pin).2).
Proof.
  assert (Hfwd : ∀ ps, (get_pin_status t m).2 !! pretty pin = Some ps →
                       pin ∈ pins_to_monitor m ∧ ps = (status_of_pin t m pin).2).
  { intros ps Hk.
    destruct (status_loop_lookup t _ m m ∅ _ ps (status_equiv_refl m) Hk)
      as [Hempty | (p & Hp & Heq & ->)].
    - by rewrite lookup_empty in Hempty.
    - apply (inj pretty) in Heq. by subst p. }
  split; [| done].
  intros Hin.
  destruct (status_loop_covers t (pins_to_monitor m) m ∅ pin Hin) as [ps Hps].
  fold (get_pin_status t m) in Hps. rewrite Hps.
  by destruct (Hfwd ps Hps) as [_ ->].
Qed.

(** ** The example monitor *)

Lemma example_monitor_init l :
  GPIOMonitor_init (FileParsed example_config) (Simulated (λ _, l))
    (λ _, example_day) = Ok (example_monitor l).
Proof. reflexivity. Qed.

Lemma example_monitor_init_hw l :
  GPIOMonitor_init (FileParsed example_config) (Hardware (λ _, Some l))
    (λ _, example_day) = Ok (example_monitor l).
Proof. reflexivity. Qed.

(** ** Pending high starts and levels *)



(** ** Recorded intervals *)

(** C2, as the code has it.  In a state reached from a freshly built
    monitor, a loop body either appends nothing to any history buffer, or
    appends to its line's buffer one entry: the entry ends at the tick's
    time, it starts at the time of the line's latest logged edge, which is
    a rising edge, and its duration is its end minus its start, which is
    not negative when the tick's time is not before that rising edge. *)
Theorem recorded_interval_shape
    (f : config_file) (src : line_source) (clock : nat → Z)
    (m0 : monitor) (ops : list op) (t pin : Z) (s : sample) :
  GPIOMonitor_init f src clock = Ok m0 →
  let m := (run m0 ops).1 in
  let m' := (monitor_pin t m pin s).1 in
  high_duration_history m' = high_duration_history m
  ∨ (∃ rise e,
       last_edge pin (run m0 ops).2 = Some rise
       ∧ e_old rise = LOW ∧ e_new rise = HIGH
       ∧ current_high_start m !! pin = Some (e_time rise)
       ∧ high_duration_history m' =
           <[pin := Deque.append history_maxlen (history_of m pin) e]>
             (high_duration_history m)
       ∧ interval_end e = t
       ∧ interval_start e = e_time rise
       ∧ duration e = interval_end e - interval_start e
       ∧ (e_time rise ≤ t → 0 ≤ duration e)).
Proof.
  intros Hinit. cbv zeta.
  destruct (GPIOMonitor_init_fresh _ _ _ _ Hinit) as (_ & _ & He).
  pose proof (run_pending_invariant m0 ops He) as Hinv.
  set (m := (run m0 ops).1) in *. set (log := (run m0 ops).2) in *.
  destruct (monitor_pin_cases t m pin s) as [[-> _] | (new & _ & _ & ->)];
    [by left |].
  destruct (transition_fields t pin (level_of m pin) new m)
    as (_ & _ & _ & _ & _ & _ & Hh).
  rewrite Hh.
  destruct (level_of m pin), new; try (by left).
  destruct (current_high_start m !! pin) as [start |] eqn:Hs; [| by left].
  right. destruct (Hinv pin) as [H1 _]. destruct (H1 start Hs) as [Hlast _].
  exists (Edge start pin LOW HIGH), (Entry t (t - start)).
  unfold interval_end, interval_start. simpl.
  repeat split; try done; lia.
Qed.

(** C2 as stated fails when the clock steps back between the two edges:
    the entry recorded for a rising edge read at 02:00:00 and a falling edge
    read at 01:00:01 has a negative duration. *)
Lemma clock_step_back_negative_duration :
  GPIOMonitor_init (FileParsed example_config) (Hardware (λ _, Some LOW))
    (λ _, example_day) = Ok (example_monitor LOW)
  ∧ ∃ e,
      history_of (run (example_monitor LOW)
                    [OpSample (at_time 2 0 0) 17 (HwRead HIGH);
                     OpSample (at_time 1 0 1) 17 (HwRead LOW)]).1 17
        = [e]
      ∧ interval_start e = at_time 2 0 0
      ∧ interval_end e = at_time 1 0 1
      ∧ duration e = - (3599 * Datetime.us_per_second)
      ∧ ¬ (0 ≤ duration e).
Proof.
  split; [reflexivity |].
  exists (Entry (at_time 1 0 1) (at_time 1 0 1 - at_time 2 0 0)).
  repeat split; try reflexivity. vm_compute. by intros H.
Qed.

(** ** History queries *)

Lemma get_pin_history_ok now m pin h :
  Datetime.delta_valid (h * Datetime.us_per_hour) = true →
  Datetime.valid (now - h * Datetime.us_per_hour) = true →
  get_pin_history now m pin (Datetime.HInt h) =
  Ok (filter (λ e, now - h * Datetime.us_per_hour ≤ timestamp e) (history_of m pin)).
Proof.
  intros Hd Hv. unfold get_pin_history, history_of.
  destruct (high_duration_history m !! pin) as [d |]; [| done].
  unfold Datetime.timedelta_hours. cbv zeta. rewrite Hd.
  change (Ok (h * Datetime.us_per_hour) ≫= ?k) with (k (h * Datetime.us_per_hour)).
  cbv beta. unfold Datetime.sub_delta. rewrite Hv. done.
Qed.

(** C1, as the code has it.  For every hours value [h] for which
    [now - h] hours is a datetime, [get_pin_history] returns the entries of
    the line's buffer whose recorded timestamp, the end of the interval, is
    not before [now - h] hours, in the buffer's order; with [h = 0] the
    result is empty when every entry was recorded before [now]. *)
Theorem get_pin_history_filters_by_timestamp (now : Z) (m : monitor) (pin h : Z) :
  Datetime.delta_valid (h * Datetime.us_per_hour) = true →
  Datetime.valid (now - h * Datetime.us_per_hour) = true →
  get_pin_history now m pin (Datetime.HInt h) =
    Ok (filter (λ e, now - h * Datetime.us_per_hour ≤ interval_end e)
          (history_of m pin))
  ∧ (h = 0 →
     (∀ e, e ∈ history_of m pin → interval_end e < now) →
     get_pin_history now m pin (Datetime.HInt h) = Ok []).
Proof.
  intros Hd Hv. split; [by apply get_pin_history_ok |].
  intros -> Hbefore. rewrite get_pin_history_ok by done. f_equal.
  induction (history_of m pin) as [| e l IH]; [done |].
  rewrite filter_cons_False.
  - apply IH. intros e' He'. apply Hbefore. by right.
  - specialize (Hbefore e (ltac:(left))). unfold interval_end in Hbefore. lia.
Qed.

(** C1 as stated fails: an interval that began before the cutoff and ended
    after it is returned, although its start is before [now - h] hours. *)
Lemma history_filter_uses_end_not_start :
  let m := (run (example_monitor LOW)
              [OpSample (at_time 10 0 0) 17 (HwRead HIGH);
               OpSample (at_time 10 30 0) 17 (HwRead LOW)]).1 in
  let now := at_time 11 15 0 in
  get_pin_history now m 17 (Datetime.HInt 1)
    = Ok [Entry (at_time 10 30 0) (30 * 60 * Datetime.us_per_second)]
  ∧ filter (λ e, now - 1 * Datetime.us_per_hour ≤ interval_start e)
      (history_of m 17) = []
  ∧ get_pin_history now m 17 (Datetime.HInt 1)
    ≠ Ok (filter (λ e, now - 1 * Datetime.us_per_hour ≤ interval_start e)
            (history_of m 17)).
Proof.
  cbv zeta. split; [reflexivity |]. split; [reflexivity |].
  intros H. vm_compute in H. discriminate H.
Qed.

(** C10, as the code has it.  For a line without a recorded entry:
    when the history map has no key for the line the result is the empty
    list, whatever the hours value; when the key is there with an empty
    buffer the cutoff is computed first and the call raises what that
    computation raises; whenever the cutoff can be computed the result is
    the empty list. *)
Theorem get_pin_history_without_entries
    (now : Z) (m : monitor) (pin : Z) (hours : Datetime.hours_arg) :
  history_of m pin = [] →
  (high_duration_history m !! pin = None →
   get_pin_history now m pin hours = Ok [])
  ∧ (high_duration_history m !! pin = Some [] →
     get_pin_history now m pin hours =
       (delta ← Datetime.timedelta_hours hours;
        _ ← Datetime.sub_delta now delta;
        Ok []))
  ∧ (∀ delta cutoff,
       Datetime.timedelta_hours hours = Ok delta →
       Datetime.sub_delta now delta = Ok cutoff →
       get_pin_history now m pin hours = Ok []).
Proof.
  intros Hempty. unfold get_pin_history. unfold history_of in Hempty.
  destruct (high_duration_history m !! pin) as [d |] eqn:Hd; simpl in Hempty.
  - subst d. split; [done |]. split.
    + intros _. destruct (Datetime.timedelta_hours hours) as [delta |]; [| done].
      simpl. by destruct (Datetime.sub_delta now delta).
    + intros delta cutoff -> . simpl. by intros ->.
  - split; [done |]. split; [done | by intros].
Qed.

(** C10 as stated fails for a monitored line that has recorded nothing once
    a snapshot has created its buffer: an hours value that puts the cutoff
    before year 1, or one that is not a number, makes the call raise. *)
Lemma history_of_quiet_line_raises :
  let m := (run (example_monitor LOW) [OpStatus (at_time 0 0 1)]).1 in
  history_of m 17 = []
  ∧ get_pin_history (at_time 0 0 2) m 17 (Datetime.HInt 20000000)
    = Raise OverflowError
  ∧ get_pin_history (at_time 0 0 2) m 17 Datetime.HNotNumber = Raise TypeError.
Proof. cbv zeta. repeat split; reflexivity. Qed.

(** ** Configuration loading *)

(** C7, as the code has it.  A missing file gives the defaults: lines 2 to
    27, an interval of 0.1 s, a window of 60 minutes, no labels.  A file
    that parses gives its content.  Nothing else is caught: a malformed file
    raises [JSONDecodeError], an unreadable one [OSError], and the monitor
    is then not built. *)
Theorem load_config_defaults_when_missing :
  _load_config FileMissing = Ok default_config
  ∧ cfg_pins_to_monitor default_config
    = Some [2; 3; 4; 5; 6; 7; 8; 9; 10; 11; 12; 13; 14; 15; 16; 17; 18; 19;
            20; 21; 22; 23; 24; 25; 26; 27]
  ∧ cfg_update_interval default_config = Some (1 # 10)%Q
  ∧ cfg_history_duration_minutes default_config = Some 60
  ∧ cfg_pin_labels default_config = Some ∅
  ∧ (∀ c, _load_config (FileParsed c) = Ok c)
  ∧ _load_config FileMalformed = Raise JSONDecodeError
  ∧ _load_config FileUnreadable = Raise OSError
  ∧ (∀ choice clock, ∃ m0,
       GPIOMonitor_init FileMissing (Simulated choice) clock = Ok m0
       ∧ pins_to_monitor m0 = range_2_28
       ∧ update_interval m0 = (1 # 10)%Q
       ∧ history_duration m0 = 60
       ∧ pin_labels m0 = ∅)
  ∧ (∀ src clock,
       GPIOMonitor_init FileMalformed src clock = Raise JSONDecodeError).
Proof.
  repeat split; try reflexivity.
  intros choice clock. eexists. split; [reflexivity |].
  match goal with
  | |- context [_setup_simulation ?c ?k ?m] =>
      destruct (setup_simulation_fields 0 c k (pins_to_monitor m) m)
        as (H1 & H2 & H3 & H4)
  end.
  unfold _setup_simulation. by rewrite H1, H2, H3, H4.
Qed.

(** C7 as stated fails on a malformed file: loading raises, no configuration
    is returned and the monitor is not built. *)
Lemma malformed_config_raises :
  _load_config FileMalformed = Raise JSONDecodeError
  ∧ ¬ (∃ c, _load_config FileMalformed = Ok c)
  ∧ GPIOMonitor_init FileMalformed (Simulated (λ _, LOW)) (λ _, example_day)
    = Raise JSONDecodeError.
Proof.
  split; [reflexivity |]. split; [| reflexivity].
  intros [c H]. discriminate H.
Qed.

(** ** Change notifications *)

Lemma monitor_pin_no_emit t m pin s :
  Forall (λ e, ¬ is_emit e) (monitor_pin t m pin s).2.
Proof.
  unfold monitor_pin. destruct (read_level s (level_of m pin)) as [n |].
  - case_decide; simpl; repeat constructor; by intros [].
  - simpl. repeat constructor. by intros [].
Qed.

Lemma tick_on_no_emit t work m :
  Forall (λ e, ¬ is_emit e) (tick_on t m work).2.
Proof.
  revert m. induction work as [| [pin s] rest IH]; intros m; simpl; [constructor |].
  pose proof (monitor_pin_no_emit t m pin s) as H1.
  destruct (monitor_pin t m pin s) as [m1 eff1].
  specialize (IH m1). destruct (tick_on t m1 rest) as [m2 eff2]. simpl in *.
  by apply Forall_app.
Qed.

(** The listener of the web server does publish a full snapshot when it is
    called; the monitor never calls it. *)
Lemma on_gpio_state_change_emits now ws pin new_state old_state :
  Emit "gpio_update" (get_pin_status now (gpio_monitor ws)).2
  ∈ (_on_gpio_state_change now ws pin new_state old_state).2.
Proof.
  unfold _on_gpio_state_change.
  destruct (get_pin_status now (gpio_monitor ws)) as [m gpio_data]. simpl.
  right. left.
Qed.

(** C8 on the code.  A tick sends no event to the clients: its only effects
    are log records, the transition branch writes one debug record and calls
    no listener.  The web server cannot register its listener either:
    [GPIOMonitor] has no [set_state_change_callback], so building the web
    server raises [AttributeError]. *)
Theorem tick_emits_no_notification :
  (∀ t m sampler, Forall (λ e, ¬ is_emit e) (tick t m sampler).2)
  ∧ (∀ t pin old_state new_state m,
       (transition t pin old_state new_state m).2
       = [LogDebug pin old_state new_state])
  ∧ (monitor_pin (at_time 0 0 1) (example_monitor LOW) 17 (HwRead HIGH)).2
    = [LogDebug 17 LOW HIGH]
  ∧ (∀ f src clock ws, WebServer_init f src clock ≠ Ok ws)
  ∧ WebServer_init (FileParsed example_config) (Simulated (λ _, LOW))
      (λ _, example_day)
    = Raise (AttributeError "set_state_change_callback").
Proof.
  split; [| split; [| split; [| split]]].
  - intros t m sampler. apply tick_on_no_emit.
  - done.
  - reflexivity.
  - intros f src clock ws. unfold WebServer_init.
    destruct (GPIOMonitor_init f src clock) as [m |]; [| done].
    simpl. discriminate.
  - reflexivity.
Qed.

(** ** The theorems at concrete inputs *)

Lemma get_pin_history_filters_by_timestamp_witness :
  Datetime.delta_valid (1 * Datetime.us_per_hour) = true
  ∧ Datetime.valid (at_time 11 15 0 - 1 * Datetime.us_per_hour) = true
  ∧ get_pin_history (at_time 11 15 0) (run (example_monitor LOW) example_ops).1
      17 (Datetime.HInt 1)
    = Ok (filter (λ e, at_time 11 15 0 - 1 * Datetime.us_per_hour ≤ interval_end e)
            (history_of (run (example_monitor LOW) example_ops).1 17))
  ∧ get_pin_history (at_time 11 15 0) (run (example_monitor LOW) example_ops).1
      17 (Datetime.HInt 0) = Ok [].
Proof.
  split; [reflexivity |]. split; [reflexivity |]. split.
  - exact (proj1 (get_pin_history_filters_by_timestamp (at_time 11 15 0)
                    (run (example_monitor LOW) example_ops).1 17 1
                    eq_refl eq_refl)).
  - apply (proj2 (get_pin_history_filters_by_timestamp (at_time 11 15 0)
                    (run (example_monitor LOW) example_ops).1 17 0
                    eq_refl eq_refl)); [reflexivity |].
    intros e He. vm_compute in He.
    apply list_elem_of_singleton in He. subst e. reflexivity.
Defined.

Lemma recorded_interval_shape_witness :
  GPIOMonitor_init (FileParsed example_config) (Simulated (λ _, LOW))
    (λ _, example_day) = Ok (example_monitor LOW)
  ∧ (high_duration_history
       (monitor_pin (at_time 10 30 0)
          (run (example_monitor LOW) [OpSample (at_time 10 0 0) 17 (HwRead HIGH)]).1
          17 (HwRead LOW)).1
     ≠ high_duration_history
         (run (example_monitor LOW) [OpSample (at_time 10 0 0) 17 (HwRead HIGH)]).1
     → ∃ rise e,
         last_edge 17
           (run (example_monitor LOW) [OpSample (at_time 10 0 0) 17 (HwRead HIGH)]).2
         = Some rise
         ∧ interval_start e = e_time rise
         ∧ interval_end e = at_time 10 30 0).
Proof.
  split; [reflexivity |]. intros Hne.
  destruct (recorded_interval_shape (FileParsed example_config)
              (Simulated (λ _, LOW)) (λ _, example_day) (example_monitor LOW)
              [OpSample (at_time 10 0 0) 17 (HwRead HIGH)]
              (at_time 10 30 0) 17 (HwRead LOW) eq_refl)
    as [Hsame | (rise & e & Hlast & _ & _ & _ & _ & Hend & Hstart & _)].
  - by destruct Hne.
  - by exists rise, e.
Defined.

Lemma rising_then_falling_edge_witness :
  example_day ≤ example_day + 500000
  ∧ level_of (example_monitor LOW) 17 = LOW
  ∧ count_of (example_monitor LOW) 17 = 0
  ∧ history_of (example_monitor LOW) 17 = []
  ∧ count_of
      (monitor_pin (example_day + 500000)
         (monitor_pin example_day (example_monitor LOW) 17 (HwRead HIGH)).1
         17 (HwRead LOW)).1 17 = 2.
Proof.
  split; [by vm_compute |]. repeat (split; [reflexivity |]).
  apply (rising_then_falling_edge (example_monitor LOW) 17
           example_day (example_day + 500000) (HwRead HIGH) (HwRead LOW));
    solve [by vm_compute | reflexivity].
Defined.



Lemma reset_counters_frame_witness :
  17 ∈ pins_to_monitor (run (example_monitor LOW) example_ops).1
  ∧ history_of (run (example_monitor LOW) example_ops).1 17 ≠ []
  ∧ history_of (reset_counters (run (example_monitor LOW) example_ops).1).1 17 = []
  ∧ count_of (reset_counters (run (example_monitor LOW) example_ops).1).1 17 = 0.
Proof.
  assert (Hin : 17 ∈ pins_to_monitor (run (example_monitor LOW) example_ops).1)
    by (vm_compute; left).
  split; [done |]. split; [by vm_compute |].
  pose proof (reset_counters_frame (run (example_monitor LOW) example_ops).1)
    as (Hc & Hh & _).
  split; [by apply Hh | apply Hc].
Defined.

Lemma read_error_skips_line_witness :
  (∀ i : nat, pins_to_monitor (example_monitor HIGH) !! i = Some 17 →
              (λ _ : nat, HwError) i = HwError)
  ∧ pin_states (tick (at_time 0 0 1) (example_monitor HIGH) (λ _, HwError)).1 !! 17
    = Some HIGH.
Proof.
  split; [reflexivity |].
  destruct (read_error_skips_line (at_time 0 0 1) (example_monitor HIGH)
              (λ _, HwError) 17 (λ _ _, eq_refl)) as (-> & _).
  reflexivity.
Defined.

Lemma get_pin_history_without_entries_witness :
  history_of (example_monitor LOW) 17 = []
  ∧ high_duration_history (example_monitor LOW) !! 17 = None
  ∧ get_pin_history (at_time 0 0 2) (example_monitor LOW) 17
      (Datetime.HInt 20000000) = Ok [].
Proof.
  split; [reflexivity |]. split; [reflexivity |].
  exact (proj1 (get_pin_history_without_entries (at_time 0 0 2)
                  (example_monitor LOW) 17 (Datetime.HInt 20000000) eq_refl)
           eq_refl).
Defined.

(** * Further properties of the engine *)

(** ** A snapshot changes nothing that can be read *)

Lemma status_loop_equiv t pins m1 m status :
  status_equiv m1 m → status_equiv (status_loop t pins m1 status).1 m.
Proof.
  revert m1 status. induction pins as [| p pins IH]; intros m1 status Heq; [done |].
  rewrite status_loop_cons. apply IH. by apply status_of_pin_equiv.
Qed.

Lemma get_pin_status_equiv t m : status_equiv (get_pin_status t m).1 m.
Proof. apply status_loop_equiv, status_equiv_refl. Qed.

(** ** Transition counts *)

Lemma edges_for_app pin log1 log2 :
  edges_for pin (log1 ++ log2) = edges_for pin log1 ++ edges_for pin log2.
Proof. apply filter_app. Qed.

Lemma monitor_pin_count t m q s pin :
  count_of (monitor_pin t m q s).1 pin =
  count_of m pin
  + Z.of_nat (length (edges_for pin (edges_of t (monitor_pin t m q s).2))).
Proof.
  destruct (monitor_pin_cases t m q s) as [[-> ->] | (new & _ & _ & ->)].
  { simpl. lia. }
  rewrite transition_effects.
  destruct (transition_fields t q (level_of m q) new m)
    as (_ & _ & _ & Hc & _).
  unfold count_of at 1. rewrite Hc.
  change (edges_of t [LogDebug q (level_of m q) new])
    with [Edge t q (level_of m q) new].
  unfold edges_for. rewrite filter_cons, filter_nil. simpl.
  destruct (decide (q = pin)) as [-> | Hne].
  - rewrite lookup_insert_eq. simpl. lia.
  - rewrite lookup_insert_ne by done. fold (count_of m pin). simpl. lia.
Qed.

Lemma apply_op_count m log o pin :
  o ≠ OpReset →
  count_of (apply_op (m, log) o).1 pin
  - Z.of_nat (length (edges_for pin (apply_op (m, log) o).2))
  = count_of m pin - Z.of_nat (length (edges_for pin log)).
Proof.
  intros Hne. destruct o as [t q s | t |]; cbn [apply_op fst snd]; [| | done].
  - pose proof (monitor_pin_count t m q s pin) as Hc.
    destruct (monitor_pin t m q s) as [m' eff]. cbn [fst snd] in *.
    rewrite edges_for_app, length_app. lia.
  - destruct (get_pin_status_equiv t m) as (_ & _ & _ & _ & Hc & _).
    by rewrite Hc.
Qed.

Lemma foldl_apply_op_count ops m log pin :
  Forall (λ o, o ≠ OpReset) ops →
  count_of (foldl apply_op (m, log) ops).1 pin
  - Z.of_nat (length (edges_for pin (foldl apply_op (m, log) ops).2))
  = count_of m pin - Z.of_nat (length (edges_for pin log)).
Proof.
  revert m log. induction ops as [| o ops IH]; intros m log Hall; [done |].
  apply Forall_cons in Hall as [Ho Hall]. simpl.
  destruct (apply_op (m, log) o) as [m1 log1] eqn:Hstep.
  rewrite (IH m1 log1 Hall).
  pose proof (apply_op_count m log o pin Ho) as H. by rewrite Hstep in H.
Qed.

(** X1. The transition count of a line is the number of its edges logged
    since the last reset: without a reset in the run it grows by the number
    of the line's logged edges, and after a reset it is the number of the
    line's edges logged after that reset. *)
Theorem transition_count_counts_edges (m0 : monitor) (ops1 ops2 : list op) (pin : Z) :
  Forall (λ o, o ≠ OpReset) ops2 →
  count_of (run m0 ops2).1 pin
    = count_of m0 pin + Z.of_nat (length (edges_for pin (run m0 ops2).2))
  ∧ count_of (run m0 (ops1 ++ OpReset :: ops2)).1 pin
    = Z.of_nat (length (edges_for pin (run m0 (ops1 ++ OpReset :: ops2)).2))
      - Z.of_nat (length (edges_for pin (run m0 ops1).2)).
Proof.
  intros Hall. split.
  - pose proof (foldl_apply_op_count ops2 m0 [] pin Hall) as H.
    unfold run. simpl in H. lia.
  - unfold run. rewrite foldl_app. simpl.
    destruct (foldl apply_op (m0, []) ops1) as [m1 log1]. cbn [apply_op fst snd].
    pose proof (foldl_apply_op_count ops2 (reset_counters m1).1 log1 pin Hall) as H.
    destruct (reset_counters_fields m1) as (_ & _ & _ & Hc & _).
    unfold count_of at 2 in H. rewrite Hc, lookup_empty in H. simpl in H. lia.
Qed.

Lemma transition_count_counts_edges_witness :
  Forall (λ o, o ≠ OpReset) example_ops
  ∧ count_of (run (example_monitor LOW) example_ops).1 17 = 2
  ∧ count_of (run (example_monitor LOW) (example_ops ++ OpReset :: example_ops)).1 17
    = 2.
Proof.
  assert (Hall : Forall (λ o, o ≠ OpReset) example_ops)
    by (repeat constructor; discriminate).
  split; [done |]. split.
  - rewrite (proj1 (transition_count_counts_edges (example_monitor LOW) []
                      example_ops 17 Hall)). reflexivity.
  - rewrite (proj2 (transition_count_counts_edges (example_monitor LOW) example_ops
                      example_ops 17 Hall)). reflexivity.
Defined.

(** ** Levels and logged edges *)

Lemma edges_for_snoc pin log e :
  edges_for pin (log ++ [e]) =
  if decide (e_pin e = pin) then edges_for pin log ++ [e] else edges_for pin log.
Proof.
  rewrite edges_for_app. unfold edges_for at 2. rewrite filter_cons, filter_nil.
  case_decide; [done | by rewrite app_nil_r].
Qed.

Lemma monitor_pin_log t m q s :
  ((monitor_pin t m q s).1 = m ∧ edges_of t (monitor_pin t m q s).2 = [])
  ∨ (∃ new_state,
       new_state ≠ level_of m q
       ∧ edges_of t (monitor_pin t m q s).2 = [Edge t q (level_of m q) new_state]
       ∧ pin_states (monitor_pin t m q s).1 = <[q := new_state]> (pin_states m)
       ∧ last_transition_time (monitor_pin t m q s).1
         = <[q := t]> (last_transition_time m)).
Proof.
  destruct (monitor_pin_cases t m q s) as [H | (new & Hne & _ & ->)]; [by left |].
  right. exists new.
  destruct (transition_fields t q (level_of m q) new m)
    as (_ & _ & Hs & _ & Ht & _).
  by rewrite transition_effects.
Qed.

Lemma tracks_edges_step m0 m log o :
  tracks_edges m0 m log →
  tracks_edges m0 (apply_op (m, log) o).1 (apply_op (m, log) o).2.
Proof.
  intros Hinv. destruct o as [t q s | t |]; cbn [apply_op fst snd].
  - destruct (monitor_pin_log t m q s) as [[Hm Hl] | (new & _ & Hl & Hs & Ht)];
      destruct (monitor_pin t m q s) as [m' eff]; cbn [fst snd] in *.
    + subst m'. by rewrite Hl, app_nil_r.
    + rewrite Hl. intros pin. rewrite last_edge_snoc. simpl.
      destruct (decide (q = pin)) as [-> | Hne].
      * by rewrite Hs, Ht, !lookup_insert_eq.
      * rewrite Hs, Ht, !lookup_insert_ne by done. apply Hinv.
  - destruct (get_pin_status_frame t m) as (_ & Hs & _ & Ht & _).
    intros pin. rewrite Hs, Ht. apply Hinv.
  - destruct (reset_counters_fields m) as (_ & Hs & _ & _ & Ht & _).
    intros pin. rewrite Hs, Ht. apply Hinv.
Qed.

Lemma run_tracks_edges m0 ops :
  tracks_edges m0 (run m0 ops).1 (run m0 ops).2.
Proof.
  apply (run_ind (tracks_edges m0)).
  - intros pin. done.
  - intros m log o. apply tracks_edges_step.
Qed.

(** X2. After any run, a line whose latest logged edge is [e] is stored at
    the level that edge reached, and its last transition time is the time of
    that edge; a line without a logged edge has the level and the last
    transition time it had at the start. *)
Theorem level_follows_last_edge (m0 : monitor) (ops : list op) (pin : Z) :
  match last_edge pin (run m0 ops).2 with
  | Some e =>
      e_pin e = pin
      ∧ level_of (run m0 ops).1 pin = e_new e
      ∧ last_transition_time (run m0 ops).1 !! pin = Some (e_time e)
  | None =>
      level_of (run m0 ops).1 pin = level_of m0 pin
      ∧ last_transition_time (run m0 ops).1 !! pin = last_transition_time m0 !! pin
  end.
Proof.
  pose proof (run_tracks_edges m0 ops pin) as H.
  destruct (last_edge pin (run m0 ops).2) as [e |] eqn:Hlast.
  - destruct H as [Hs Ht]. split; [| split; [| done]].
    + unfold last_edge in Hlast. apply last_Some_elem_of in Hlast.
      by apply list_elem_of_filter in Hlast as [? _].
    + unfold level_of. by rewrite Hs.
  - destruct H as [Hs Ht]. split; [| done]. unfold level_of. by rewrite Hs.
Qed.

Lemma final_level_snoc l es e : final_level l (es ++ [e]) = e_new e.
Proof. unfold final_level. by rewrite foldl_snoc. Qed.

Lemma alternating_snoc l es e :
  alternating l es →
  e_old e = final_level l es →
  e_new e ≠ final_level l es →
  alternating l (es ++ [e]).
Proof.
  revert l. induction es as [| e' es IH]; intros l Halt Hold Hnew; simpl in *.
  - done.
  - destruct Halt as (H1 & H2 & H3). repeat split; try done. by apply IH.
Qed.

Lemma edges_alternate_step m0 m log o :
  edges_alternate m0 m log →
  edges_alternate m0 (apply_op (m, log) o).1 (apply_op (m, log) o).2.
Proof.
  intros Hinv. destruct o as [t q s | t |]; cbn [apply_op fst snd].
  - destruct (monitor_pin_log t m q s) as [[Hm Hl] | (new & Hnew & Hl & Hs & _)];
      destruct (monitor_pin t m q s) as [m' eff]; cbn [fst snd] in *.
    + subst m'. by rewrite Hl, app_nil_r.
    + rewrite Hl. intros pin. rewrite edges_for_snoc. simpl.
      destruct (Hinv pin) as [Halt Hlev]. unfold level_of at 3. rewrite Hs.
      destruct (decide (q = pin)) as [-> | Hne].
      * rewrite lookup_insert_eq, final_level_snoc. simpl. split; [| done].
        apply alternating_snoc; simpl; congruence.
      * rewrite lookup_insert_ne by done. done.
  - destruct (get_pin_status_frame t m) as (_ & Hs & _).
    intros pin.
    replace (level_of (get_pin_status t m).1 pin) with (level_of m pin)
      by (unfold level_of; by rewrite Hs).
    apply Hinv.
  - destruct (reset_counters_fields m) as (_ & Hs & _).
    intros pin.
    replace (level_of (reset_counters m).1 pin) with (level_of m pin)
      by (unfold level_of; by rewrite Hs).
    apply Hinv.
Qed.

(** X3. The logged edges of a line alternate: the first leaves the level
    the line had at the start, each one reaches a level other than the one
    it leaves, the next one leaves the level it reached, and the stored
    level is the one the last edge reached.  A line never logs two rising
    or two falling edges in a row. *)
Theorem logged_edges_alternate (m0 : monitor) (ops : list op) (pin : Z) :
  alternating (level_of m0 pin) (edges_for pin (run m0 ops).2)
  ∧ level_of (run m0 ops).1 pin
    = final_level (level_of m0 pin) (edges_for pin (run m0 ops).2).
Proof.
  revert pin. apply (run_ind (edges_alternate m0)).
  - intros pin. done.
  - intros m log o. apply edges_alternate_step.
Qed.

(** ** Ticks without a change *)

Lemma monitor_pin_same t m pin s :
  read_level s (level_of m pin) = Some (level_of m pin) →
  monitor_pin t m pin s = (m, []).
Proof.
  intros Hr. unfold monitor_pin. rewrite Hr. by rewrite decide_False by (by intros []).
Qed.

Lemma tick_on_same t m work :
  (∀ w, w ∈ work → read_level w.2 (level_of m w.1) = Some (level_of m w.1)) →
  tick_on t m work = (m, []).
Proof.
  induction work as [| [pin s] rest IH]; intros Hsame; [done |].
  simpl. rewrite (monitor_pin_same t m pin s) by (apply (Hsame (pin, s)); left).
  rewrite IH; [done |]. intros w Hw. apply Hsame. by right.
Qed.

(** X4. A tick in which every line reads the level that is stored for it
    (in simulation: no draw flips) changes nothing: the monitor is the same
    and nothing is logged, so no count grows and no interval is recorded. *)
Theorem tick_without_change (t : Z) (m : monitor) (sampler : nat → sample) :
  (∀ i pin, pins_to_monitor m !! i = Some pin →
            read_level (sampler i) (level_of m pin) = Some (level_of m pin)) →
  tick t m sampler = (m, []).
Proof.
  intros Hsame. unfold tick. apply tick_on_same.
  intros [pin s] Hw. unfold work_list in Hw.
  apply elem_of_lookup_imap in Hw as (i & x & Heq & Hi).
  injection Heq as -> ->. simpl. by apply Hsame.
Qed.

Lemma tick_without_change_witness :
  (∀ i pin, pins_to_monitor (example_monitor HIGH) !! i = Some pin →
            read_level (SimDraw false) (level_of (example_monitor HIGH) pin)
            = Some (level_of (example_monitor HIGH) pin))
  ∧ tick (at_time 0 0 1) (example_monitor HIGH) (λ _, SimDraw false)
    = (example_monitor HIGH, []).
Proof.
  assert (H : ∀ (i : nat) pin,
            pins_to_monitor (example_monitor HIGH) !! i = Some pin →
            read_level (SimDraw false) (level_of (example_monitor HIGH) pin)
            = Some (level_of (example_monitor HIGH) pin)) by done.
  split; [done |].
  exact (tick_without_change (at_time 0 0 1) (example_monitor HIGH)
           (λ _, SimDraw false) H).
Defined.

(** ** The deque keeps the most recent entries *)

Lemma last_n_short {A : Type} (n : nat) (l : list A) :
  (length l ≤ n)%nat → last_n n l = l.
Proof.
  intros Hle. unfold last_n. by replace (length l - n)%nat with 0%nat by lia.
Qed.

Lemma last_n_cons_full {A : Type} (n : nat) (y : A) (l : list A) :
  (n ≤ length l)%nat → last_n n (y :: l) = last_n n l.
Proof.
  intros Hle. unfold last_n. simpl.
  by replace (S (length l) - n)%nat with (S (length l - n)) by lia.
Qed.

Lemma deque_appends_last_n {A : Type} (n : nat) (xs d : list A) :
  (length d ≤ n)%nat →
  foldl (Deque.append n) d xs = last_n n (d ++ xs).
Proof.
  revert d. induction xs as [| x xs IH]; intros d Hd; simpl.
  - rewrite app_nil_r. by rewrite last_n_short.
  - rewrite IH by (by apply deque_append_length).
    unfold Deque.append.
    destruct (Nat.ltb_spec n (length (d ++ [x]))) as [Hlt | Hge].
    + rewrite length_app in Hlt. simpl in Hlt.
      destruct d as [| y d]; simpl in *.
      * assert (n = 0)%nat as -> by lia. unfold last_n.
        rewrite !Nat.sub_0_r. simpl. by rewrite drop_all.
      * rewrite last_n_cons_full.
        -- by rewrite <- app_assoc.
        -- rewrite length_app. simpl. lia.
    + by rewrite <- app_assoc.
Qed.

(** X5. A deque of capacity [n] that has received a sequence of appends
    holds the last [n] of the appended values, in the order of their
    appends (all of them when there are at most [n]). *)
Theorem deque_holds_most_recent (xs : list entry) :
  foldl (Deque.append history_maxlen) [] xs = last_n history_maxlen xs
  ∧ ((length xs ≤ history_maxlen)%nat →
     foldl (Deque.append history_maxlen) [] xs = xs)
  ∧ foldl (Deque.append history_maxlen) [] xs `suffix_of` xs.
Proof.
  assert (H : foldl (Deque.append history_maxlen) [] xs = last_n history_maxlen xs).
  { rewrite deque_appends_last_n; [done | simpl; lia]. }
  split; [done |]. split.
  - intros Hle. rewrite H. by apply last_n_short.
  - rewrite H. unfold last_n. apply suffix_drop.
Qed.

Lemma deque_holds_most_recent_witness :
  (length [Entry 1 1; Entry 2 1] ≤ history_maxlen)%nat
  ∧ foldl (Deque.append history_maxlen) [] [Entry 1 1; Entry 2 1]
    = [Entry 1 1; Entry 2 1].
Proof.
  assert (H : (length [Entry 1 1; Entry 2 1] ≤ history_maxlen)%nat)
    by (vm_compute; lia).
  split; [done |].
  exact (proj1 (proj2 (deque_holds_most_recent [Entry 1 1; Entry 2 1])) H).
Defined.

(** ** The history of a line is the replay of its edges *)

Lemma last_n_app_last_n {A : Type} (n : nat) (l : list A) (x : A) :
  last_n n (last_n n l ++ [x]) = last_n n (l ++ [x]).
Proof.
  unfold last_n. rewrite !length_app, length_drop. simpl.
  destruct (decide (length l ≤ n)%nat) as [Hle | Hgt].
  - replace (length l - n)%nat with 0%nat by lia. rewrite drop_0.
    by replace (length l - 0 + 1 - n)%nat with (length l + 1 - n)%nat by lia.
  - replace (length l - (length l - n) + 1 - n)%nat with 1%nat by lia.
    replace (length l + 1 - n)%nat with (S (length l - n)) by lia.
    destruct (decide (n = 0)%nat) as [-> | Hpos].
    { rewrite Nat.sub_0_r, drop_all. simpl.
      rewrite drop_ge; [done |]. rewrite length_app. simpl. lia. }
    rewrite drop_app_le by (rewrite length_drop; lia).
    rewrite drop_drop. rewrite drop_app_le by lia.
    by replace (length l - n + 1)%nat with (S (length l - n)) by lia.
Qed.

Lemma deque_append_last_n {A : Type} (n : nat) (l : list A) (x : A) :
  Deque.append n (last_n n l) x = last_n n (l ++ [x]).
Proof.
  rewrite <- last_n_app_last_n.
  change (Deque.append n (last_n n l) x)
    with (foldl (Deque.append n) (last_n n l) [x]).
  apply deque_appends_last_n. unfold last_n. rewrite length_drop. lia.
Qed.

Lemma replay_snoc es e : replay (es ++ [e]) = replay_step (replay es) e.
Proof. unfold replay. by rewrite foldl_snoc. Qed.

Lemma agrees_with_replay_sample t m log q s :
  agrees_with_replay m log →
  agrees_with_replay (monitor_pin t m q s).1
    (log ++ edges_of t (monitor_pin t m q s).2).
Proof.
  intros Hinv.
  destruct (monitor_pin_cases t m q s) as [[-> ->] | (new & Hnew & _ & ->)].
  { by rewrite app_nil_r. }
  rewrite transition_effects.
  destruct (transition_fields t q (level_of m q) new m)
    as (_ & _ & _ & _ & _ & Hp & Hh).
  set (m' := (transition t q (level_of m q) new m).1) in *.
  change (edges_of t [LogDebug q (level_of m q) new])
    with [Edge t q (level_of m q) new].
  intros pin. rewrite edges_for_snoc. cbn [e_pin].
  destruct (Hinv pin) as [Hpend Hhist].
  unfold history_of at 1. rewrite Hp, Hh.
  destruct (decide (q = pin)) as [-> | Hne].
  - rewrite replay_snoc. unfold replay_step. simpl.
    rewrite <- Hpend.
    destruct (level_of m pin), new; try done.
    + by rewrite lookup_insert_eq.
    + rewrite lookup_delete_eq.
      destruct (current_high_start m !! pin) as [start |]; simpl.
      * rewrite lookup_insert_eq. simpl. rewrite Hhist.
        split; [done |]. apply deque_append_last_n.
      * done.
  - assert (Hp' : match level_of m q, new with
                  | HIGH, LOW => delete q (current_high_start m)
                  | LOW, HIGH => <[q := t]> (current_high_start m)
                  | _, _ => current_high_start m
                  end !! pin = current_high_start m !! pin).
    { destruct (level_of m q), new; try done.
      - by rewrite lookup_insert_ne.
      - by rewrite lookup_delete_ne. }
    rewrite Hp'. split; [done |]. rewrite <- Hhist. unfold history_of.
    destruct (level_of m q), new, (current_high_start m !! q); try done.
    by rewrite lookup_insert_ne.
Qed.

Lemma agrees_with_replay_step m log o :
  o ≠ OpReset →
  agrees_with_replay m log →
  agrees_with_replay (apply_op (m, log) o).1 (apply_op (m, log) o).2.
Proof.
  intros Hne Hinv. destruct o as [t q s | t |]; cbn [apply_op fst snd]; [| | done].
  - pose proof (agrees_with_replay_sample t m log q s Hinv) as H.
    by destruct (monitor_pin t m q s).
  - destruct (get_pin_status_equiv t m) as (_ & _ & _ & Hp & _ & Hh).
    intros pin. rewrite Hp, Hh. apply Hinv.
Qed.

Lemma foldl_agrees_with_replay ops m log :
  Forall (λ o, o ≠ OpReset) ops →
  agrees_with_replay m log →
  agrees_with_replay (foldl apply_op (m, log) ops).1 (foldl apply_op (m, log) ops).2.
Proof.
  revert m log. induction ops as [| o ops IH]; intros m log Hall Hinv; [done |].
  apply Forall_cons in Hall as [Ho Hall]. simpl.
  pose proof (agrees_with_replay_step m log o Ho Hinv) as Hstep.
  destruct (apply_op (m, log) o) as [m1 log1]. by apply IH.
Qed.

(** X6. In a run without a reset from a freshly built monitor, the history
    buffer of a line holds the last 1000 of the intervals that the line's
    own logged edges complete (each from a rising edge to the next falling
    edge, ending at the falling edge), and the line's pending high start is
    the time of its latest rising edge that no falling edge has followed. *)
Theorem history_is_replay_of_edges
    (f : config_file) (src : line_source) (clock : nat → Z)
    (m0 : monitor) (ops : list op) (pin : Z) :
  GPIOMonitor_init f src clock = Ok m0 →
  Forall (λ o, o ≠ OpReset) ops →
  history_of (run m0 ops).1 pin
    = last_n history_maxlen (replay (edges_for pin (run m0 ops).2)).2
  ∧ current_high_start (run m0 ops).1 !! pin
    = (replay (edges_for pin (run m0 ops).2)).1.
Proof.
  intros Hinit Hall.
  destruct (GPIOMonitor_init_fresh _ _ _ _ Hinit) as (_ & Hh & Hp).
  assert (H0 : agrees_with_replay m0 []).
  { intros q. unfold history_of. by rewrite Hh, Hp, !lookup_empty. }
  destruct (foldl_agrees_with_replay ops m0 [] Hall H0 pin) as [H1 H2].
  done.
Qed.

Lemma history_is_replay_of_edges_witness :
  GPIOMonitor_init (FileParsed example_config) (Simulated (λ _, LOW))
    (λ _, example_day) = Ok (example_monitor LOW)
  ∧ Forall (λ o, o ≠ OpReset) example_ops
  ∧ history_of (run (example_monitor LOW) example_ops).1 17
    = [Entry (at_time 10 30 0) (30 * 60 * Datetime.us_per_second)].
Proof.
  assert (Hall : Forall (λ o, o ≠ OpReset) example_ops)
    by (repeat constructor; discriminate).
  split; [reflexivity |]. split; [done |].
  rewrite (proj1 (history_is_replay_of_edges (FileParsed example_config)
                    (Simulated (λ _, LOW)) (λ _, example_day)
                    (example_monitor LOW) example_ops 17 eq_refl Hall)).
  reflexivity.
Defined.

(** ** Histories under a clock that does not step back *)

Lemma deque_append_elem_of {A : Type} (n : nat) (d : list A) (x y : A) :
  y ∈ Deque.append n d x → y ∈ d ∨ y = x.
Proof.
  unfold Deque.append. intros Hy.
  assert (Hin : y ∈ d ++ [x]).
  { destruct (n <? length (d ++ [x]))%nat; [| done].
    destruct (d ++ [x]) as [| z l]; [done |]. simpl in Hy. by right. }
  apply elem_of_app in Hin as [? | Hx]; [by left |].
  right. by apply list_elem_of_singleton in Hx.
Qed.

Lemma StronglySorted_snoc_le (l : list Z) (t : Z) :
  StronglySorted Z.le l → (∀ x, x ∈ l → x ≤ t) → StronglySorted Z.le (l ++ [t]).
Proof.
  induction 1 as [| y l Hs IH Hall]; intros Hle; simpl.
  - repeat constructor.
  - constructor.
    + apply IH. intros x Hx. apply Hle. by right.
    + apply Forall_app. split; [done |].
      constructor; [| constructor]. apply Hle. left.
Qed.

Lemma deque_append_sorted (n : nat) (d : list entry) (x : entry) :
  StronglySorted Z.le (timestamp <$> d) →
  (∀ e, e ∈ d → timestamp e ≤ timestamp x) →
  StronglySorted Z.le (timestamp <$> Deque.append n d x).
Proof.
  intros Hs Hle. unfold Deque.append.
  assert (Hall : StronglySorted Z.le (timestamp <$> d ++ [x])).
  { rewrite fmap_app. simpl. apply StronglySorted_snoc_le; [done |].
    intros t Ht. apply list_elem_of_fmap in Ht as (e & -> & He). by apply Hle. }
  destruct (n <? length (d ++ [x]))%nat; [| done].
  destruct (d ++ [x]) as [| z l]; [done |]. simpl in *.
  by apply StronglySorted_inv in Hall as [? _].
Qed.

Lemma history_sorted_before_sample t ts m q s :
  history_sorted_before m (t :: ts) →
  Forall (Z.le t) ts →
  history_sorted_before (monitor_pin t m q s).1 ts.
Proof.
  intros Hinv Hts pin. destruct (Hinv pin) as [Hs Hb].
  destruct (monitor_pin_cases t m q s) as [[-> _] | (new & _ & _ & ->)].
  { split; [done |]. intros e t' He Ht'. apply (Hb e t' He). by right. }
  destruct (transition_fields t q (level_of m q) new m)
    as (_ & _ & _ & _ & _ & _ & Hh).
  set (m' := (transition t q (level_of m q) new m).1) in *.
  assert (Hcases :
    history_of m' pin = history_of m pin
    ∨ (∃ d, q = pin
            ∧ history_of m' pin
              = Deque.append history_maxlen (history_of m pin) (Entry t d))).
  { unfold history_of at 1 3. rewrite Hh.
    destruct (level_of m q), new, (current_high_start m !! q) as [start |];
      try (by left).
    destruct (decide (q = pin)) as [-> | Hne].
    - right. exists (t - start). by rewrite lookup_insert_eq.
    - left. by rewrite lookup_insert_ne. }
  destruct Hcases as [-> | (d & -> & ->)].
  { split; [done |]. intros e t' He Ht'. apply (Hb e t' He). by right. }
  split.
  - apply deque_append_sorted; [done |]. intros e He. simpl. apply (Hb e t He). left.
  - intros e t' He Ht'. apply deque_append_elem_of in He as [He | ->].
    + apply (Hb e t' He). by right.
    + simpl. by apply (proj1 (Forall_forall _ _) Hts).
Qed.

Lemma history_sorted_before_keep m m' ts :
  (∀ pin, history_of m' pin = history_of m pin ∨ history_of m' pin = []) →
  history_sorted_before m ts → history_sorted_before m' ts.
Proof.
  intros Hsame Hinv pin. destruct (Hinv pin) as [Hs Hb].
  destruct (Hsame pin) as [-> | ->]; [done |].
  split; [constructor |]. intros e t He. by apply elem_of_nil in He.
Qed.

Lemma foldl_history_sorted ops m log :
  StronglySorted Z.le (sample_times ops) →
  history_sorted_before m (sample_times ops) →
  history_sorted_before (foldl apply_op (m, log) ops).1 [].
Proof.
  revert m log. induction ops as [| o ops IH]; intros m log Hts Hinv; [done |].
  simpl. destruct o as [t q s | t |]; cbn [apply_op fst snd].
  - simpl in Hts, Hinv. apply StronglySorted_inv in Hts as [Hts Hhd].
    pose proof (history_sorted_before_sample t _ m q s Hinv Hhd) as Hstep.
    destruct (monitor_pin t m q s) as [m1 eff]. by apply IH.
  - simpl in Hts, Hinv. apply IH; [done |].
    apply (history_sorted_before_keep m); [| done].
    intros pin. left. by destruct (get_pin_status_equiv t m) as (_ & _ & _ & _ & _ & ->).
  - simpl in Hts, Hinv. apply IH; [done |].
    apply (history_sorted_before_keep m); [| done].
    intros pin. destruct (reset_counters_fields m) as (Hp & _ & _ & _ & _ & _ & Hh).
    unfold history_of at 1 3. rewrite Hh. case_decide; [by right | by left].
Qed.

Lemma filter_sorted_suffix (c : Z) (l : list entry) :
  StronglySorted Z.le (timestamp <$> l) →
  filter (λ e, c ≤ timestamp e) l `suffix_of` l.
Proof.
  induction l as [| e l IH]; intros Hs; [done |].
  simpl in Hs. apply StronglySorted_inv in Hs as [Hs Hall].
  destruct (decide (c ≤ timestamp e)) as [Hc | Hc].
  - rewrite filter_cons_True by done.
    assert (Hid : filter (λ e, c ≤ timestamp e) l = l).
    { clear IH Hs. induction l as [| e' l IH]; [done |].
      simpl in Hall. apply Forall_cons in Hall as [Hle Hall].
      rewrite filter_cons_True by lia. f_equal. by apply IH. }
    by rewrite Hid.
  - rewrite filter_cons_False by done. apply suffix_cons_r. by apply IH.
Qed.

(** X7. When no loop body reads an earlier clock value than the one before
    it, every history buffer of a monitor built afresh is in the order of
    its timestamps after any run, and a history query (with a representable
    cutoff) returns a suffix of the line's buffer: the most recent entries,
    with none skipped. *)
Theorem history_query_returns_most_recent
    (f : config_file) (src : line_source) (clock : nat → Z)
    (m0 : monitor) (ops : list op) (now pin h : Z) :
  GPIOMonitor_init f src clock = Ok m0 →
  StronglySorted Z.le (sample_times ops) →
  Datetime.delta_valid (h * Datetime.us_per_hour) = true →
  Datetime.valid (now - h * Datetime.us_per_hour) = true →
  StronglySorted Z.le (timestamp <$> history_of (run m0 ops).1 pin)
  ∧ ∃ recent,
      get_pin_history now (run m0 ops).1 pin (Datetime.HInt h) = Ok recent
      ∧ recent `suffix_of` history_of (run m0 ops).1 pin.
Proof.
  intros Hinit Hts Hd Hv.
  destruct (GPIOMonitor_init_fresh _ _ _ _ Hinit) as (_ & Hh & _).
  assert (H0 : history_sorted_before m0 (sample_times ops)).
  { intros q. unfold history_of. rewrite Hh, lookup_empty. simpl.
    split; [constructor |]. intros e t He. by apply elem_of_nil in He. }
  destruct (foldl_history_sorted ops m0 [] Hts H0 pin) as [Hs _].
  fold (run m0 ops) in Hs. split; [done |].
  eexists. split; [by apply get_pin_history_ok |].
  by apply filter_sorted_suffix.
Qed.

Lemma history_query_returns_most_recent_witness :
  GPIOMonitor_init (FileParsed example_config) (Simulated (λ _, LOW))
    (λ _, example_day) = Ok (example_monitor LOW)
  ∧ StronglySorted Z.le (sample_times example_ops)
  ∧ Datetime.delta_valid (1 * Datetime.us_per_hour) = true
  ∧ Datetime.valid (at_time 11 15 0 - 1 * Datetime.us_per_hour) = true
  ∧ ∃ recent,
      get_pin_history (at_time 11 15 0) (run (example_monitor LOW) example_ops).1
        17 (Datetime.HInt 1) = Ok recent
      ∧ recent `suffix_of` history_of (run (example_monitor LOW) example_ops).1 17.
Proof.
  assert (Hts : StronglySorted Z.le (sample_times example_ops)).
  { repeat constructor. by vm_compute. }
  split; [reflexivity |]. split; [done |].
  split; [reflexivity |]. split; [reflexivity |].
  exact (proj2 (history_query_returns_most_recent (FileParsed example_config)
                  (Simulated (λ _, LOW)) (λ _, example_day) (example_monitor LOW)
                  example_ops (at_time 11 15 0) 17 1 eq_refl Hts eq_refl eq_refl)).
Defined.

(** ** A longer window returns more *)

Lemma filter_sublist_weaken {A : Type} (P Q : A → Prop)
    `{∀ x, Decision (P x)} `{∀ x, Decision (Q x)} (l : list A) :
  (∀ x, P x → Q x) → filter P l `sublist_of` filter Q l.
Proof.
  intros HPQ. induction l as [| x l IH]; [done |].
  rewrite !filter_cons. destruct (decide (P x)) as [HP | HP].
  - rewrite decide_True by auto. by apply sublist_skip.
  - destruct (decide (Q x)); [by apply sublist_cons | done].
Qed.

(** X8. A history query over a longer window returns at least what the
    query over a shorter window returns at the same instant, in the same
    order, and both return entries of the line's buffer only. *)
Theorem history_query_monotone_in_hours (now : Z) (m : monitor) (pin h1 h2 : Z) :
  h1 ≤ h2 →
  Datetime.delta_valid (h1 * Datetime.us_per_hour) = true →
  Datetime.valid (now - h1 * Datetime.us_per_hour) = true →
  Datetime.delta_valid (h2 * Datetime.us_per_hour) = true →
  Datetime.valid (now - h2 * Datetime.us_per_hour) = true →
  ∃ r1 r2,
    get_pin_history now m pin (Datetime.HInt h1) = Ok r1
    ∧ get_pin_history now m pin (Datetime.HInt h2) = Ok r2
    ∧ r1 `sublist_of` r2
    ∧ r2 `sublist_of` history_of m pin.
Proof.
  intros Hle Hd1 Hv1 Hd2 Hv2. eexists _, _.
  split; [by apply get_pin_history_ok |].
  split; [by apply get_pin_history_ok |]. split.
  - apply filter_sublist_weaken. intros e. unfold Datetime.us_per_hour,
      Datetime.us_per_second. lia.
  - apply sublist_filter.
Qed.

Lemma history_query_monotone_in_hours_witness :
  0 ≤ 1
  ∧ ∃ r1 r2,
      get_pin_history (at_time 11 15 0) (run (example_monitor LOW) example_ops).1
        17 (Datetime.HInt 0) = Ok r1
      ∧ get_pin_history (at_time 11 15 0) (run (example_monitor LOW) example_ops).1
          17 (Datetime.HInt 1) = Ok r2
      ∧ r1 `sublist_of` r2.
Proof.
  split; [lia |].
  destruct (history_query_monotone_in_hours (at_time 11 15 0)
              (run (example_monitor LOW) example_ops).1 17 0 1
              ltac:(lia) eq_refl eq_refl eq_refl eq_refl)
    as (r1 & r2 & H1 & H2 & H3 & _).
  by exists r1, r2.
Defined.

(** ** Snapshots *)

Lemma monitor_eq (m1 m2 : monitor) :
  pins_to_monitor m1 = pins_to_monitor m2 →
  update_interval m1 = update_interval m2 →
  history_duration m1 = history_duration m2 →
  pin_states m1 = pin_states m2 →
  pin_labels m1 = pin_labels m2 →
  transition_counts m1 = transition_counts m2 →
  last_transition_time m1 = last_transition_time m2 →
  high_duration_history m1 = high_duration_history m2 →
  current_high_start m1 = current_high_start m2 →
  m1 = m2.
Proof. destruct m1, m2. simpl. by intros -> -> -> -> -> -> -> -> ->. Qed.

Lemma status_loop_config t pins m status :
  update_interval (status_loop t pins m status).1 = update_interval m
  ∧ history_duration (status_loop t pins m status).1 = history_duration m.
Proof.
  revert m status. induction pins as [| p pins IH]; intros m status; [done |].
  rewrite status_loop_cons.
  by destruct (IH (status_of_pin t m p).1 (<[pretty p := (status_of_pin t m p).2]> status))
    as [-> ->].
Qed.


Lemma last_n_length {A : Type} (n : nat) (l : list A) :
  length (last_n n l) = (n `min` length l)%nat.
Proof. unfold last_n. rewrite length_drop. lia. Qed.

(** X9. A snapshot has exactly one value per monitored line, under the
    decimal spelling of the line id.  The value shows the stored level, the
    label set for the line or else "GPIO <id>", the transition count, and the
    last 50 entries of the line's history buffer (all of them when there are
    fewer), in the buffer's order. *)
Theorem snapshot_shows_monitored_lines (t : Z) (m : monitor) :
  (∀ k, is_Some ((get_pin_status t m).2 !! k)
        ↔ ∃ pin, pin ∈ pins_to_monitor m ∧ k = pretty pin)
  ∧ (∀ pin ps,
       (get_pin_status t m).2 !! pretty pin = Some ps →
       ps_state ps = level_of m pin
       ∧ ps_label ps = default ("GPIO " +:+ pretty pin) (pin_labels m !! pretty pin)
       ∧ ps_transitions ps = count_of m pin
       ∧ ps_high_duration_history ps `suffix_of` history_of m pin
       ∧ length (ps_high_duration_history ps)
         = (50 `min` length (history_of m pin))%nat).
Proof.
  split.
  - intros k. split.
    + intros [ps Hk].
      destruct (status_loop_lookup t _ m m ∅ k ps (status_equiv_refl m) Hk)
        as [Hempty | (p & Hp & -> & _)].
      * by rewrite lookup_empty in Hempty.
      * by exists p.
    + intros (pin & Hin & ->).
      destruct (get_pin_status_lookup t m pin) as [H _]. by rewrite H.
  - intros pin ps Hk.
    destruct (get_pin_status_lookup t m pin) as [_ H].
    destruct (H ps Hk) as [_ ->]. cbn [status_of_pin snd ps_state ps_label
      ps_transitions ps_high_duration_history].
    repeat split; try done.
    + apply suffix_drop.
    + apply last_n_length.
Qed.



Lemma snapshot_shows_monitored_lines_witness :
  ∃ ps, (get_pin_status (at_time 11 0 0)
           (run (example_monitor LOW) example_ops).1).2 !! pretty 17 = Some ps
        ∧ ps_transitions ps = 2.
Proof.
  destruct (proj2 (proj1 (snapshot_shows_monitored_lines (at_time 11 0 0)
                            (run (example_monitor LOW) example_ops).1) (pretty 17)))
    as [ps Hps].
  { exists 17. split; [vm_compute; left | done]. }
  exists ps. split; [done |].
  destruct (proj2 (snapshot_shows_monitored_lines (at_time 11 0 0)
                     (run (example_monitor LOW) example_ops).1) 17 ps Hps)
    as (_ & _ & -> & _).
  reflexivity.
Defined.

(** ** Reset and the interval in progress *)

(** X11. A high interval in progress survives a reset: the pending high
    start of a monitored line is kept, and the falling edge that follows the
    reset records the whole interval, from the rising edge before the reset,
    as the only entry of the cleared history, with a count of 1. *)
Theorem interval_in_progress_survives_reset
    (m : monitor) (pin start t : Z) (s : sample) :
  pin ∈ pins_to_monitor m →
  current_high_start m !! pin = Some start →
  level_of m pin = HIGH →
  read_level s HIGH = Some LOW →
  let m1 := (reset_counters m).1 in
  let m2 := (monitor_pin t m1 pin s).1 in
  current_high_start m1 !! pin = Some start
  ∧ history_of m2 pin = [Entry t (t - start)]
  ∧ count_of m2 pin = 1
  ∧ current_high_start m2 !! pin = None
  ∧ level_of m2 pin = LOW.
Proof.
  intros Hin Hp Hl Hr. cbv zeta.
  destruct (reset_counters_fields m) as (_ & Hs1 & _ & Hc1 & _ & Hp1 & Hh1).
  set (m1 := (reset_counters m).1) in *.
  assert (Hl1 : level_of m1 pin = HIGH) by (unfold level_of in *; by rewrite Hs1).
  assert (Hpend1 : current_high_start m1 !! pin = Some start) by (by rewrite Hp1).
  assert (Hhist1 : history_of m1 pin = []).
  { unfold history_of. rewrite Hh1. by rewrite decide_True. }
  assert (Hcount1 : count_of m1 pin = 0).
  { unfold count_of. by rewrite Hc1, lookup_empty. }
  rewrite (monitor_pin_edge t m1 pin s LOW) by (rewrite Hl1; done).
  rewrite Hl1.
  destruct (transition_fields t pin HIGH LOW m1) as (_ & _ & Hs2 & Hc2 & _ & Hp2 & Hh2).
  set (m2 := (transition t pin HIGH LOW m1).1) in *.
  rewrite Hpend1 in Hh2.
  split; [done |]. split; [| split; [| split]].
  - unfold history_of. rewrite Hh2, lookup_insert_eq. simpl. by rewrite Hhist1.
  - unfold count_of. rewrite Hc2, lookup_insert_eq. simpl.
    fold (count_of m1 pin). lia.
  - by rewrite Hp2, lookup_delete_eq.
  - unfold level_of. by rewrite Hs2, lookup_insert_eq.
Qed.

Lemma interval_in_progress_survives_reset_witness :
  17 ∈ pins_to_monitor
         (run (example_monitor LOW) [OpSample (at_time 10 0 0) 17 (HwRead HIGH)]).1
  ∧ history_of
      (monitor_pin (at_time 10 30 0)
         (reset_counters
            (run (example_monitor LOW)
               [OpSample (at_time 10 0 0) 17 (HwRead HIGH)]).1).1
         17 (HwRead LOW)).1 17
    = [Entry (at_time 10 30 0) (at_time 10 30 0 - at_time 10 0 0)].
Proof.
  assert (Hin : 17 ∈ pins_to_monitor
                  (run (example_monitor LOW)
                     [OpSample (at_time 10 0 0) 17 (HwRead HIGH)]).1)
    by (vm_compute; left).
  split; [done |].
  exact (proj1 (proj2 (interval_in_progress_survives_reset _ 17 (at_time 10 0 0)
                         (at_time 10 30 0) (HwRead LOW) Hin eq_refl eq_refl eq_refl))).
Defined.

(** X12. Resetting twice is resetting once, and after a reset the
    transition summary lists no line. *)
Theorem reset_counters_idempotent (m : monitor) :
  reset_counters (reset_counters m).1 = reset_counters m
  ∧ get_transition_summary (reset_counters m).1 = ∅.
Proof.
  destruct (reset_counters_fields m) as (H1 & H2 & H3 & H4 & H5 & H6 & H7).
  split; [| done].
  destruct (reset_counters_fields (reset_counters m).1)
    as (G1 & G2 & G3 & G4 & G5 & G6 & G7).
  assert (Hm : (reset_counters (reset_counters m).1).1 = (reset_counters m).1).
  { apply monitor_eq; try congruence.
    - rewrite !reset_counters_unfold.
      by destruct (clear_loop_frame
                     (pins_to_monitor (foldl clear_history
                        (set_transition_counts (λ _, ∅) m) (pins_to_monitor m)))
                     (set_transition_counts (λ _, ∅)
                        (foldl clear_history (set_transition_counts (λ _, ∅) m)
                           (pins_to_monitor m)))) as (_ & -> & _).
    - rewrite !reset_counters_unfold.
      by destruct (clear_loop_frame
                     (pins_to_monitor (foldl clear_history
                        (set_transition_counts (λ _, ∅) m) (pins_to_monitor m)))
                     (set_transition_counts (λ _, ∅)
                        (foldl clear_history (set_transition_counts (λ _, ∅) m)
                           (pins_to_monitor m)))) as (_ & _ & -> & _).
    - apply map_eq. intros pin. rewrite G7, H1, H7. by case_decide. }
  destruct (reset_counters (reset_counters m).1) as [m2 eff2] eqn:E2.
  destruct (reset_counters m) as [m1 eff1] eqn:E1. simpl in Hm. subst m2.
  f_equal. unfold reset_counters in E1, E2.
  injection E1 as _ <-. by injection E2 as _ <-.
Qed.

(** ** Setup *)

Lemma setup_gpio_outcome i probe clock pins m :
  match setup_gpio_from i probe clock pins m with
  | Ok m' =>
      (∀ j pin, pins !! j = Some pin → is_Some (probe (i + j)%nat))
      ∧ pins_to_monitor m' = pins_to_monitor m
  | Raise e =>
      e = AttributeError "logger"
      ∧ ∃ j pin, pins !! j = Some pin ∧ probe (i + j)%nat = None
  end.
Proof.
  revert i m. induction pins as [| p pins IH]; intros i m; simpl.
  - split; [| done]. intros j pin Hj. by rewrite lookup_nil in Hj.
  - destruct (probe i) as [l |] eqn:Hp.
    + specialize (IH (S i) (set_last_transition_time <[p := clock i]>
                             (set_pin_states <[p := l]> m))).
      destruct (setup_gpio_from (S i) probe clock pins _) as [m' | e].
      * destruct IH as [Hall Hpins]. split; [| done].
        intros [| j] pin Hj; simpl in Hj.
        -- rewrite Nat.add_0_r. by rewrite Hp.
        -- replace (i + S j)%nat with (S i + j)%nat by lia. by apply (Hall j pin).
      * destruct IH as [-> (j & pin & Hj & Hnone)]. split; [done |].
        exists (S j), pin. split; [done |].
        by replace (i + S j)%nat with (S i + j)%nat by lia.
    + split; [done |]. exists 0%nat, p. split; [done |].
      by rewrite Nat.add_0_r.
Qed.

(** X13. With hardware, building the monitor is all or nothing: when the
    probe of any configured line fails, [__init__] raises [AttributeError]
    (the handler logs through [self.logger], which is assigned only after
    setup) and no line is dropped; when every probe succeeds the monitor is
    built with all configured lines. *)
Theorem hardware_setup_all_or_nothing
    (f : config_file) (cfg : config) (probe : nat → option level) (clock : nat → Z) :
  _load_config f = Ok cfg →
  let pins := default range_2_28 (cfg_pins_to_monitor cfg) in
  ((∃ j pin, pins !! j = Some pin ∧ probe j = None) →
   GPIOMonitor_init f (Hardware probe) clock = Raise (AttributeError "logger"))
  ∧ ((∀ j pin, pins !! j = Some pin → is_Some (probe j)) →
     ∃ m0, GPIOMonitor_init f (Hardware probe) clock = Ok m0
           ∧ pins_to_monitor m0 = pins).
Proof.
  intros Hcfg. cbv zeta. unfold GPIOMonitor_init. rewrite Hcfg.
  change (Ok cfg ≫= ?k) with (k cfg). cbv beta. unfold _setup_gpio.
  match goal with
  | |- context [setup_gpio_from 0 probe clock ?pins ?m] =>
      pose proof (setup_gpio_outcome 0 probe clock pins m) as H;
      destruct (setup_gpio_from 0 probe clock pins m) as [m' | e]
  end; simpl in H.
  - destruct H as [Hall Hpins]. split.
    + intros (j & pin & Hj & Hnone).
      destruct (Hall j pin Hj) as [l Hl]. congruence.
    + intros _. by exists m'.
  - destruct H as [-> (j & pin & Hj & Hnone)]. split; [done |].
    intros Hall. destruct (Hall j pin Hj) as [l Hl]. congruence.
Qed.

Lemma hardware_setup_all_or_nothing_witness :
  _load_config (FileParsed example_config) = Ok example_config
  ∧ GPIOMonitor_init (FileParsed example_config) (Hardware (λ _, None))
      (λ _, example_day) = Raise (AttributeError "logger").
Proof.
  split; [reflexivity |].
  apply (proj1 (hardware_setup_all_or_nothing (FileParsed example_config)
                  example_config (λ _, None) (λ _, example_day) eq_refl)).
  exists 0%nat, 17. split; reflexivity.
Defined.

Lemma setup_simulation_keys i choice clock pins m pin :
  let m' := setup_simulation_from i choice clock pins m in
  (pin ∈ pins →
   ∃ j, pins !! j = Some pin
        ∧ pin_states m' !! pin = Some (choice (i + j)%nat)
        ∧ last_transition_time m' !! pin = Some (clock (i + j)%nat))
  ∧ (pin ∉ pins →
     pin_states m' !! pin = pin_states m !! pin
     ∧ last_transition_time m' !! pin = last_transition_time m !! pin).
Proof.
  revert i m. induction pins as [| p pins IH]; intros i m; cbv zeta.
  - split; [by intros ?%elem_of_nil | done].
  - simpl.
    specialize (IH (S i) (set_last_transition_time <[p := clock i]>
                            (set_pin_states <[p := choice i]> m))).
    cbv zeta in IH. destruct IH as [IHin IHout].
    destruct (decide (pin ∈ pins)) as [Hin | Hnin].
    + split; [| by intros Hn; destruct Hn; right].
      intros _. destruct (IHin Hin) as (j & Hj & Hs & Ht).
      exists (S j). replace (i + S j)%nat with (S i + j)%nat by lia. done.
    + destruct (IHout Hnin) as [Hs Ht]. simpl in Hs, Ht. split.
      * intros [-> | ?]%elem_of_cons; [| done].
        exists 0%nat. rewrite Nat.add_0_r, Hs, Ht, !lookup_insert_eq. done.
      * intros Hn. rewrite Hs, Ht.
        rewrite !lookup_insert_ne; [done | |]; intros ->; apply Hn; left.
Qed.

Lemma setup_gpio_keys i probe clock pins m m' pin :
  setup_gpio_from i probe clock pins m = Ok m' →
  (pin ∈ pins →
   ∃ j, pins !! j = Some pin
        ∧ pin_states m' !! pin = probe (i + j)%nat
        ∧ last_transition_time m' !! pin = Some (clock (i + j)%nat))
  ∧ (pin ∉ pins →
     pin_states m' !! pin = pin_states m !! pin
     ∧ last_transition_time m' !! pin = last_transition_time m !! pin).
Proof.
  revert i m. induction pins as [| p pins IH]; intros i m; simpl.
  - intros [= ->]. split; [by intros ?%elem_of_nil | done].
  - destruct (probe i) as [l |] eqn:Hp; [| done]. intros Hok.
    destruct (IH _ _ Hok) as [IHin IHout].
    destruct (decide (pin ∈ pins)) as [Hin | Hnin].
    + split; [| by intros Hn; destruct Hn; right].
      intros _. destruct (IHin Hin) as (j & Hj & Hs & Ht).
      exists (S j). replace (i + S j)%nat with (S i + j)%nat by lia. done.
    + destruct (IHout Hnin) as [Hs Ht]. simpl in Hs, Ht. split.
      * intros [-> | ?]%elem_of_cons; [| done].
        exists 0%nat. rewrite Nat.add_0_r, Hs, Ht, !lookup_insert_eq, Hp. done.
      * intros Hn. rewrite Hs, Ht.
        rewrite !lookup_insert_ne; [done | |]; intros ->; apply Hn; left.
Qed.

Lemma setup_stores_monitored_lines_full
    (f : config_file) (src : line_source) (clock : nat → Z) (m0 : monitor) (pin : Z) :
  GPIOMonitor_init f src clock = Ok m0 →
  (pin ∈ pins_to_monitor m0 →
   ∃ j l, pins_to_monitor m0 !! j = Some pin
          ∧ match src with
            | Hardware probe => probe j = Some l
            | Simulated choice => choice j = l
            end
          ∧ pin_states m0 !! pin = Some l
          ∧ last_transition_time m0 !! pin = Some (clock j))
  ∧ (pin ∉ pins_to_monitor m0 →
     pin_states m0 !! pin = None ∧ last_transition_time m0 !! pin = None).
Proof.
  unfold GPIOMonitor_init. destruct (_load_config f) as [cfg | e]; [| done].
  change (Ok cfg ≫= ?k) with (k cfg). cbv beta.
  destruct src as [probe | choice].
  - unfold _setup_gpio. intros Hok.
    match type of Hok with
    | setup_gpio_from 0 probe clock ?pins ?m = _ =>
        pose proof (setup_gpio_outcome 0 probe clock pins m) as Hout
    end.
    rewrite Hok in Hout. destruct Hout as [Hall Hpins]. simpl in Hpins.
    destruct (setup_gpio_keys _ _ _ _ _ _ pin Hok) as [Hin Hout].
    simpl in Hin, Hout. rewrite Hpins. split.
    + intros Hp. destruct (Hin Hp) as (j & Hj & Hs & Ht).
      destruct (Hall j pin Hj) as [l Hl]. simpl in Hs, Hl.
      exists j, l. by rewrite Hs.
    + intros Hp. by destruct (Hout Hp).
  - intros [= <-]. unfold _setup_simulation.
    match goal with
    | |- context [setup_simulation_from 0 choice clock ?pins ?m] =>
        destruct (setup_simulation_fresh 0 choice clock pins m) as (Hpins & _);
        destruct (setup_simulation_keys 0 choice clock pins m pin) as [Hin Hout]
    end.
    cbv zeta in Hin, Hout.
    cbn [pins_to_monitor pin_states last_transition_time] in *.
    rewrite lookup_empty in Hout. rewrite Hpins. split.
    + intros Hp. destruct (Hin Hp) as (j & Hj & Hs & Ht). by exists j, (choice j).
    + intros Hp. by destruct (Hout Hp).
Qed.

Lemma setup_stores_monitored_lines_aux
    (f : config_file) (src : line_source) (clock : nat → Z) (m0 : monitor) (pin : Z) :
  GPIOMonitor_init f src clock = Ok m0 →
  (pin ∈ pins_to_monitor m0 →
   ∃ l t, pin_states m0 !! pin = Some l ∧ last_transition_time m0 !! pin = Some t)
  ∧ (pin ∉ pins_to_monitor m0 →
     pin_states m0 !! pin = None ∧ last_transition_time m0 !! pin = None).
Proof.
  intros Hinit.
  destruct (setup_stores_monitored_lines_full f src clock m0 pin Hinit) as [Hin Hout].
  split; [| done].
  intros Hp. destruct (Hin Hp) as (j & l & _ & _ & Hs & Ht). by exists l, (clock j).
Qed.

(** X14. A monitor that [__init__] has built stores a level and a last
    transition time for exactly the monitored lines: for each monitored line
    the level and the clock value that one iteration of the setup loop read
    for it, and nothing for any other line. *)
Theorem setup_stores_monitored_lines
    (f : config_file) (src : line_source) (clock : nat → Z) (m0 : monitor) (pin : Z) :
  GPIOMonitor_init f src clock = Ok m0 →
  (pin ∈ pins_to_monitor m0 →
   ∃ j l, pins_to_monitor m0 !! j = Some pin
          ∧ match src with
            | Hardware probe => probe j = Some l
            | Simulated choice => choice j = l
            end
          ∧ pin_states m0 !! pin = Some l
          ∧ last_transition_time m0 !! pin = Some (clock j))
  ∧ (pin ∉ pins_to_monitor m0 →
     pin_states m0 !! pin = None ∧ last_transition_time m0 !! pin = None).
Proof. apply setup_stores_monitored_lines_full. Qed.

Lemma setup_stores_monitored_lines_witness :
  GPIOMonitor_init (FileParsed example_config) (Simulated (λ _, HIGH))
    (λ _, example_day) = Ok (example_monitor HIGH)
  ∧ pin_states (example_monitor HIGH) !! 18 = None.
Proof.
  split; [reflexivity |].
  apply (proj2 (setup_stores_monitored_lines (FileParsed example_config)
                  (Simulated (λ _, HIGH)) (λ _, example_day)
                  (example_monitor HIGH) 18 eq_refl)).
  vm_compute. intros H. by apply list_elem_of_singleton in H.
Defined.

(** ** The configuration along a run *)

Lemma monitor_pin_config t m pin s :
  update_interval (monitor_pin t m pin s).1 = update_interval m
  ∧ history_duration (monitor_pin t m pin s).1 = history_duration m.
Proof.
  destruct (monitor_pin_cases t m pin s) as [[-> _] | (new & _ & _ & ->)]; [done |].
  unfold transition, falling_edge, rising_edge. simpl.
  destruct (level_of m pin), new; simpl; try done.
  by destruct (current_high_start m !! pin).
Qed.

Lemma keeps_configuration_step m0 m log o :
  keeps_configuration m0 m →
  keeps_configuration m0 (apply_op (m, log) o).1.
Proof.
  intros (H1 & H2 & H3 & H4 & H5 & H6).
  destruct o as [t q s | t |]; cbn [apply_op fst snd].
  - destruct (monitor_pin_config t m q s) as [G2 G3].
    assert (G : pins_to_monitor (monitor_pin t m q s).1 = pins_to_monitor m
                ∧ pin_labels (monitor_pin t m q s).1 = pin_labels m
                ∧ (∀ pin, is_Some (pin_states m !! pin) →
                          is_Some (pin_states (monitor_pin t m q s).1 !! pin))
                ∧ (∀ pin, is_Some (last_transition_time m !! pin) →
                          is_Some (last_transition_time (monitor_pin t m q s).1 !! pin))).
    { destruct (monitor_pin_cases t m q s) as [[-> _] | (new & _ & _ & ->)]; [done |].
      destruct (transition_fields t q (level_of m q) new m)
        as (-> & -> & -> & _ & -> & _).
      repeat split; intros pin Hp; (destruct (decide (q = pin)) as [-> | Hne];
        [by rewrite lookup_insert_eq | by rewrite lookup_insert_ne]). }
    destruct G as (G1 & G4 & G5 & G6).
    destruct (monitor_pin t m q s) as [m' eff]. cbn [fst] in *.
    repeat split; try congruence; auto.
  - destruct (get_pin_status_frame t m) as (G1 & G5 & G4 & G6 & _).
    destruct (status_loop_config t (pins_to_monitor m) m ∅) as [G2 G3].
    fold (get_pin_status t m) in G2, G3.
    repeat split; try congruence.
    + intros pin. rewrite G5. auto.
    + intros pin. rewrite G6. auto.
  - destruct (reset_counters_fields m) as (G1 & G5 & G4 & _ & G6 & _).
    rewrite reset_counters_unfold in *.
    destruct (clear_loop_frame (pins_to_monitor m) (set_transition_counts (λ _, ∅) m))
      as (_ & G2 & G3 & _).
    cbn [update_interval history_duration set_transition_counts] in G2, G3.
    repeat split; try congruence.
    + intros pin. rewrite G5. auto.
    + intros pin. rewrite G6. auto.
Qed.

(** X15. No step of the engine changes the configuration (the monitored
    lines, the labels, the update interval, the history window), and in
    every state reached from a monitor that [__init__] has built each
    monitored line has a stored level and a last transition time: the
    defaults of [pin_states.get(pin, 0)] and of
    [last_transition_time.get(pin, current_time)] are never used for a
    monitored line. *)
Theorem run_keeps_configuration
    (f : config_file) (src : line_source) (clock : nat → Z)
    (m0 : monitor) (ops : list op) :
  GPIOMonitor_init f src clock = Ok m0 →
  let m := (run m0 ops).1 in
  pins_to_monitor m = pins_to_monitor m0
  ∧ update_interval m = update_interval m0
  ∧ history_duration m = history_duration m0
  ∧ pin_labels m = pin_labels m0
  ∧ (∀ pin, pin ∈ pins_to_monitor m →
            is_Some (pin_states m !! pin)
            ∧ is_Some (last_transition_time m !! pin)).
Proof.
  intros Hinit. cbv zeta.
  assert (Hk : keeps_configuration m0 (run m0 ops).1).
  { apply (run_ind (λ m _, keeps_configuration m0 m)).
    - repeat split; auto.
    - intros m log o. apply keeps_configuration_step. }
  destruct Hk as (H1 & H2 & H3 & H4 & H5 & H6).
  repeat split; try done.
  - apply H5. rewrite H1 in H.
    destruct (proj1 (setup_stores_monitored_lines_aux f src clock m0 pin Hinit) H)
      as (l & t & -> & _). done.
  - apply H6. rewrite H1 in H.
    destruct (proj1 (setup_stores_monitored_lines_aux f src clock m0 pin Hinit) H)
      as (l & t & _ & ->). done.
Qed.

Lemma run_keeps_configuration_witness :
  GPIOMonitor_init (FileParsed example_config) (Simulated (λ _, LOW))
    (λ _, example_day) = Ok (example_monitor LOW)
  ∧ pins_to_monitor (run (example_monitor LOW) (example_ops ++ [OpReset])).1 = [17].
Proof.
  split; [reflexivity |].
  exact (proj1 (run_keeps_configuration (FileParsed example_config)
                  (Simulated (λ _, LOW)) (λ _, example_day)
                  (example_monitor LOW) (example_ops ++ [OpReset]) eq_refl)).
Defined.

(** ** The background update loop *)

Lemma background_iteration_no_failure now st j :
  (gpio_update_counter st, system_update_counter st) = counters_after j →
  let r := background_iteration now None st in
  (gpio_update_counter r.1, system_update_counter r.1) = counters_after (S j)
  ∧ event_name <$> r.2 = names_at j.
Proof.
  intros Hc. cbv zeta. unfold background_iteration, counters_after, names_at in *.
  destruct (get_pin_status now (gpio_monitor (bg_server st))) as [m gpio_data].
  rewrite (decide_False (P := S j = 0%nat)) by lia.
  destruct (decide (j = 0%nat)) as [-> | Hj].
  - injection Hc as -> ->. simpl. done.
  - injection Hc as -> ->.
    rewrite (decide_True (P := 1 ≤ 1)) by lia.
    rewrite (decide_True (P := (1 ≤ j)%nat)) by lia.
    replace (Z.of_nat (S j) - 1) with (Z.of_nat j) by lia.
    assert (Hmod : 0 ≤ (Z.of_nat j - 1) `mod` 10 < 10) by (apply Z.mod_pos_bound; lia).
    assert (Hstep : Z.of_nat j `mod` 10 = ((Z.of_nat j - 1) `mod` 10 + 1) `mod` 10).
    { rewrite Zplus_mod_idemp_l. f_equal. lia. }
    destruct (decide (10 ≤ (Z.of_nat j - 1) `mod` 10 + 1)) as [Hten | Hlt].
    + assert (H9 : (Z.of_nat j - 1) `mod` 10 = 9) by lia.
      rewrite H9 in Hstep. simpl in Hstep.
      rewrite decide_True by (split; [lia | done]).
      simpl. by rewrite Hstep.
    + rewrite (Z.mod_small ((Z.of_nat j - 1) `mod` 10 + 1)) in Hstep by lia.
      rewrite decide_False by (intros [_ H0]; lia).
      simpl. by rewrite Hstep.
Qed.

Lemma background_loop_cons now fail rest st :
  background_loop ((now, fail) :: rest) st =
  ((background_loop rest (background_iteration now fail st).1).1,
   (background_iteration now fail st).2
   :: (background_loop rest (background_iteration now fail st).1).2).
Proof.
  simpl. destruct (background_iteration now fail st) as [st1 sent1]. simpl.
  by destruct (background_loop rest st1).
Qed.

Lemma background_loop_no_failure nows st j k sent :
  (gpio_update_counter st, system_update_counter st) = counters_after j →
  (background_loop ((λ now, (now, None)) <$> nows) st).2 !! k = Some sent →
  event_name <$> sent = names_at (j + k).
Proof.
  revert st j k. induction nows as [| now nows IH]; intros st j k Hc; [done |].
  rewrite fmap_cons, background_loop_cons. cbn [snd].
  destruct (background_iteration_no_failure now st j Hc) as [Hc1 Hnames].
  destruct k as [| k].
  - intros [= <-]. by rewrite Nat.add_0_r.
  - intros Hk. replace (j + S k)%nat with (S j + k)%nat by lia.
    by apply (IH _ (S j) k Hc1).
Qed.

(** X16. When no emit fails, the background loop sends a GPIO update at
    every iteration except the first, and a system update at every tenth
    iteration, the first of them at the eleventh iteration (iterations 10,
    20, 30, ... counted from 0). *)
Theorem background_loop_cadence
    (nows : list Z) (ws : web_server) (k : nat) (sent : list ws_event) :
  (background_loop ((λ now, (now, None)) <$> nows) (background_start ws)).2 !! k
    = Some sent →
  event_name <$> sent
  = (if decide (1 ≤ k)%nat then ["gpio_update"] else [])
    ++ (if decide ((1 ≤ k)%nat ∧ Z.of_nat k `mod` 10 = 0)
        then ["system_update"] else []).
Proof.
  intros Hk. by apply (background_loop_no_failure nows (background_start ws) 0 k sent).
Qed.

Lemma background_loop_cadence_witness :
  ∃ sent,
    (background_loop ((λ now, (now, None)) <$> replicate 11 (at_time 0 0 1))
       (background_start {| gpio_monitor := example_monitor LOW;
                            update_running := true |})).2 !! 10%nat = Some sent
    ∧ event_name <$> sent = ["gpio_update"; "system_update"].
Proof.
  destruct ((background_loop ((λ now, (now, None)) <$> replicate 11 (at_time 0 0 1))
               (background_start {| gpio_monitor := example_monitor LOW;
                                    update_running := true |})).2 !! 10%nat)
    as [sent |] eqn:Hk.
  - exists sent. split; [done |].
    exact (background_loop_cadence (replicate 11 (at_time 0 0 1))
             {| gpio_monitor := example_monitor LOW; update_running := true |}
             10 sent Hk).
  - vm_compute in Hk. discriminate Hk.
Defined.

(** A failed emit of the GPIO update leaves both counters as they were, so
    the next iteration tries again. *)
Lemma background_iteration_gpio_failure now st :
  1 ≤ gpio_update_counter st →
  let r := background_iteration now (Some FailGpioEmit) st in
  gpio_update_counter r.1 = gpio_update_counter st
  ∧ system_update_counter r.1 = system_update_counter st
  ∧ r.2 = [].
Proof.
  intros Hg. cbv zeta. unfold background_iteration.
  rewrite decide_True by done.
  by destruct (get_pin_status now (gpio_monitor (bg_server st))).
Qed.

(** ** The reset handler and the label update *)

(** X17. The reset handler sends two events, [counters_reset] and then a
    [gpio_update] whose snapshot shows, for every monitored line, a
    transition count of 0 and an empty history, with the level, the label
    and the live high duration that a snapshot taken at the same instant
    without the reset shows. *)
Theorem reset_handler_broadcasts_cleared_lines (now : Z) (ws : web_server) :
  ∃ gpio_data,
    (handle_reset_counters now ws).2
    = [WsEmit "counters_reset" PayloadNone;
       WsEmit "gpio_update" (PayloadGpio gpio_data)]
    ∧ (∀ pin, pin ∈ pins_to_monitor (gpio_monitor ws) →
         ∃ ps before,
           gpio_data !! pretty pin = Some ps
           ∧ (get_pin_status now (gpio_monitor ws)).2 !! pretty pin = Some before
           ∧ ps_transitions ps = 0
           ∧ ps_high_duration_history ps = []
           ∧ ps_state ps = ps_state before
           ∧ ps_label ps = ps_label before
           ∧ ps_last_transition ps = ps_last_transition before
           ∧ ps_current_high_duration ps = ps_current_high_duration before).
Proof.
  unfold handle_reset_counters.
  destruct (reset_counters_fields (gpio_monitor ws))
    as (Hpins & Hs & Hl & Hc & Ht & Hp & Hh).
  set (m1 := (reset_counters (gpio_monitor ws)).1) in *.
  destruct (get_pin_status now m1) as [m2 gpio_data] eqn:Hsnap.
  exists gpio_data. split; [done |].
  intros pin Hin.
  destruct (get_pin_status_lookup now m1 pin) as [H1 _].
  destruct (get_pin_status_lookup now (gpio_monitor ws) pin) as [H0 _].
  rewrite Hsnap in H1. simpl in H1.
  exists (status_of_pin now m1 pin).2, (status_of_pin now (gpio_monitor ws) pin).2.
  split; [apply H1; by rewrite Hpins |]. split; [by apply H0 |].
  unfold status_of_pin. cbn [snd ps_transitions ps_high_duration_history ps_state
    ps_label ps_last_transition ps_current_high_duration].
  unfold count_of, history_of, level_of.
  rewrite Hc, Hh, Hs, Hl, Ht, Hp, lookup_empty.
  rewrite decide_True by done. done.
Qed.

Lemma reset_handler_broadcasts_cleared_lines_witness :
  17 ∈ pins_to_monitor (run (example_monitor LOW) example_ops).1
  ∧ ∃ gpio_data ps,
      (handle_reset_counters (at_time 11 0 0)
         {| gpio_monitor := (run (example_monitor LOW) example_ops).1;
            update_running := true |}).2
      = [WsEmit "counters_reset" PayloadNone;
         WsEmit "gpio_update" (PayloadGpio gpio_data)]
      ∧ gpio_data !! pretty 17 = Some ps
      ∧ ps_transitions ps = 0.
Proof.
  assert (Hin : 17 ∈ pins_to_monitor (run (example_monitor LOW) example_ops).1)
    by (vm_compute; left).
  split; [done |].
  destruct (reset_handler_broadcasts_cleared_lines (at_time 11 0 0)
              {| gpio_monitor := (run (example_monitor LOW) example_ops).1;
                 update_running := true |}) as (gpio_data & Hsent & Hlines).
  destruct (Hlines 17 Hin) as (ps & before & Hps & _ & Hzero & _).
  by exists gpio_data, ps.
Defined.



(** ** Uptime formatting *)

Lemma string_app_nonempty (s1 s2 : string) : s2 ≠ "" → s1 +:+ s2 ≠ "".
Proof. intros Hne. destruct s1; [done | discriminate]. Qed.

Lemma timedelta_seconds_range d : 0 ≤ timedelta_seconds d < 86400.
Proof.
  unfold timedelta_seconds, Datetime.us_per_day, Datetime.us_per_hour,
    Datetime.us_per_second.
  assert (H : 0 ≤ d `mod` (24 * (3600 * 1000000)) < 24 * (3600 * 1000000))
    by (apply Z.mod_pos_bound; lia).
  split.
  - apply Z.div_pos; lia.
  - apply Z.div_lt_upper_bound; lia.
Qed.

(** X19. The formatted uptime names each of days, hours and minutes exactly
    when that component is positive, and the seconds when they are positive
    or when nothing else is named; it has between one and four parts and is
    never the empty string; a delta of less than a second (and not negative)
    is "0 seconds". *)
Theorem format_uptime_parts (d : Z) :
  let days := timedelta_days d in
  let hours := timedelta_seconds d / 3600 in
  let minutes := (timedelta_seconds d `mod` 3600) / 60 in
  let seconds := (timedelta_seconds d `mod` 3600) `mod` 60 in
  uptime_parts d
  = (if decide (0 < days) then [pretty days +:+ " day" +:+ plural days] else [])
    ++ (if decide (0 < hours) then [pretty hours +:+ " hour" +:+ plural hours] else [])
    ++ (if decide (0 < minutes)
        then [pretty minutes +:+ " minute" +:+ plural minutes] else [])
    ++ (if decide (0 < seconds ∨ (days ≤ 0 ∧ hours = 0 ∧ minutes = 0))
        then [pretty seconds +:+ " second" +:+ plural seconds] else [])
  ∧ (1 ≤ length (uptime_parts d) ≤ 4)%nat
  ∧ _format_uptime d ≠ ""
  ∧ (0 ≤ d < Datetime.us_per_second → _format_uptime d = "0 seconds").
Proof.
  cbv zeta.
  pose proof (timedelta_seconds_range d) as Hsec.
  assert (Hh : 0 ≤ timedelta_seconds d / 3600) by (apply Z.div_pos; lia).
  assert (Hr : 0 ≤ timedelta_seconds d `mod` 3600 < 3600)
    by (apply Z.mod_pos_bound; lia).
  assert (Hm : 0 ≤ (timedelta_seconds d `mod` 3600) / 60) by (apply Z.div_pos; lia).
  assert (Hs : 0 ≤ (timedelta_seconds d `mod` 3600) `mod` 60 < 60)
    by (apply Z.mod_pos_bound; lia).
  assert (Hparts :
    uptime_parts d
    = (if decide (0 < timedelta_days d)
       then [pretty (timedelta_days d) +:+ " day" +:+ plural (timedelta_days d)]
       else [])
      ++ (if decide (0 < timedelta_seconds d / 3600)
          then [pretty (timedelta_seconds d / 3600) +:+ " hour"
                +:+ plural (timedelta_seconds d / 3600)] else [])
      ++ (if decide (0 < (timedelta_seconds d `mod` 3600) / 60)
          then [pretty ((timedelta_seconds d `mod` 3600) / 60) +:+ " minute"
                +:+ plural ((timedelta_seconds d `mod` 3600) / 60)] else [])
      ++ (if decide (0 < (timedelta_seconds d `mod` 3600) `mod` 60
                     ∨ (timedelta_days d ≤ 0 ∧ timedelta_seconds d / 3600 = 0
                        ∧ (timedelta_seconds d `mod` 3600) / 60 = 0))
          then [pretty ((timedelta_seconds d `mod` 3600) `mod` 60) +:+ " second"
                +:+ plural ((timedelta_seconds d `mod` 3600) `mod` 60)] else [])).
  { unfold uptime_parts. cbv zeta.
    destruct (decide (0 < timedelta_days d));
      destruct (decide (0 < timedelta_seconds d / 3600));
      destruct (decide (0 < (timedelta_seconds d `mod` 3600) / 60));
      simpl;
      match goal with
      | |- context [decide (?a ∨ ?b = [])] =>
          destruct (decide (a ∨ b = [])) as [HP | HP]
      end;
      match goal with
      | |- context [decide (?a ∨ ?c)] => destruct (decide (a ∨ c)) as [HQ | HQ]
      end;
      simpl; try done; exfalso;
      try (destruct HP as [? | HL];
           [apply HQ; by left
           | first [discriminate HL | apply HQ; right; repeat split; lia]]);
      try (destruct HQ as [? | (? & ? & ?)];
           [apply HP; by left | first [lia | apply HP; by right]]). }
  split; [done |].
  assert (Hlen : (1 ≤ length (uptime_parts d) ≤ 4)%nat).
  { rewrite Hparts. rewrite !length_app.
    destruct (decide (0 < timedelta_days d));
      destruct (decide (0 < timedelta_seconds d / 3600));
      destruct (decide (0 < (timedelta_seconds d `mod` 3600) / 60));
      match goal with
      | |- context [decide (?P ∨ ?Q)] => destruct (decide (P ∨ Q)) as [? | Hn]
      end; simpl; lia. }
  split; [done |]. split.
  - unfold _format_uptime.
    assert (Hne : ∀ s, s ∈ uptime_parts d → s ≠ "").
    { intros s. rewrite Hparts. rewrite !elem_of_app.
      intros [H | [H | [H | H]]];
        match type of H with
        | _ ∈ (if decide ?P then _ else _) => destruct (decide P)
        end;
        try (by apply elem_of_nil in H);
        apply list_elem_of_singleton in H; subst s;
        apply string_app_nonempty; discriminate. }
    destruct (uptime_parts d) as [| x xs]; [simpl in Hlen; lia |].
    simpl. destruct xs.
    + apply Hne. left.
    + intros H. assert (Hx : x ≠ "") by (apply Hne; left).
      destruct x; [done | discriminate].
  - intros Hd. unfold _format_uptime.
    assert (Hdays : timedelta_days d = 0).
    { unfold timedelta_days. apply Z.div_small.
      unfold Datetime.us_per_day, Datetime.us_per_hour, Datetime.us_per_second in *.
      lia. }
    assert (Hzero : timedelta_seconds d = 0).
    { unfold timedelta_seconds. rewrite Z.mod_small.
      - apply Z.div_small. lia.
      - unfold Datetime.us_per_day, Datetime.us_per_hour,
          Datetime.us_per_second in *. lia. }
    unfold uptime_parts. rewrite Hdays, Hzero. reflexivity.
Qed.

Lemma format_uptime_parts_witness :
  0 ≤ 999999 < Datetime.us_per_second
  ∧ _format_uptime 999999 = "0 seconds".
Proof.
  assert (H : 0 ≤ 999999 < Datetime.us_per_second) by (vm_compute; done).
  split; [done |].
  exact (proj2 (proj2 (proj2 (format_uptime_parts 999999))) H).
Defined.

(** X20. A negative uptime delta (a boot time later than the clock reading)
    is formatted without its days: the result is that of the time of day
    that is left, so one second before boot reads as 23 hours, 59 minutes,
    59 seconds. *)
Theorem format_uptime_negative (d : Z) :
  d < 0 →
  _format_uptime d = _format_uptime (d `mod` Datetime.us_per_day)
  ∧ timedelta_days (d `mod` Datetime.us_per_day) = 0
  ∧ timedelta_days d < 0.
Proof.
  intros Hneg.
  assert (Hpos : 0 < Datetime.us_per_day) by (by vm_compute).
  assert (Hrange : 0 ≤ d `mod` Datetime.us_per_day < Datetime.us_per_day)
    by (by apply Z.mod_pos_bound).
  assert (Hd0 : timedelta_days (d `mod` Datetime.us_per_day) = 0).
  { unfold timedelta_days. by apply Z.div_small. }
  assert (Hdn : timedelta_days d < 0).
  { unfold timedelta_days. apply Z.div_lt_upper_bound; lia. }
  split; [| done].
  unfold _format_uptime, uptime_parts. cbv zeta. rewrite Hd0.
  assert (Hsec : timedelta_seconds (d `mod` Datetime.us_per_day) = timedelta_seconds d).
  { unfold timedelta_seconds. by rewrite Zmod_mod. }
  rewrite Hsec.
  rewrite (decide_False (P := 0 < timedelta_days d)) by lia.
  by rewrite (decide_False (P := 0 < 0)) by lia.
Qed.

Lemma format_uptime_negative_witness :
  - Datetime.us_per_second < 0
  ∧ _format_uptime (- Datetime.us_per_second) = "23 hours, 59 minutes, 59 seconds".
Proof.
  assert (H : - Datetime.us_per_second < 0) by (by vm_compute).
  split; [done |].
  rewrite (proj1 (format_uptime_negative (- Datetime.us_per_second) H)).
  by vm_compute.
Defined.

(** ** Lines do not interfere within a tick *)






(** ** The live high duration *)

Lemma pending_matches_edge_sample t m log q s :
  pending_matches_edge m log →
  pending_matches_edge (monitor_pin t m q s).1
    (log ++ edges_of t (monitor_pin t m q s).2).
Proof.
  intros Hinv.
  destruct (monitor_pin_cases t m q s) as [[-> ->] | (new & Hnew & _ & ->)].
  { by rewrite app_nil_r. }
  rewrite transition_effects.
  destruct (transition_fields t q (level_of m q) new m)
    as (_ & _ & _ & _ & _ & Hp & _).
  set (m' := (transition t q (level_of m q) new m).1) in *.
  change (edges_of t [LogDebug q (level_of m q) new])
    with [Edge t q (level_of m q) new].
  intros pin. rewrite last_edge_snoc, Hp. cbn [e_pin].
  destruct (decide (q = pin)) as [-> | Hne].
  - cbn [e_new e_time].
    destruct (level_of m pin), new; try done.
    + by rewrite lookup_insert_eq.
    + by rewrite lookup_delete_eq.
  - rewrite <- (Hinv pin).
    destruct (level_of m q), new; try done.
    + by rewrite lookup_insert_ne.
    + by rewrite lookup_delete_ne.
Qed.

Lemma pending_matches_edge_step m log o :
  pending_matches_edge m log →
  pending_matches_edge (apply_op (m, log) o).1 (apply_op (m, log) o).2.
Proof.
  intros Hinv. destruct o as [t q s | t |]; cbn [apply_op fst snd].
  - pose proof (pending_matches_edge_sample t m log q s Hinv) as H.
    by destruct (monitor_pin t m q s).
  - destruct (get_pin_status_frame t m) as (_ & _ & _ & _ & Hp & _).
    intros pin. rewrite Hp. apply Hinv.
  - destruct (reset_counters_fields m) as (_ & _ & _ & _ & _ & Hp & _).
    intros pin. rewrite Hp. apply Hinv.
Qed.

Lemma run_pending_matches_edge m0 ops :
  current_high_start m0 = ∅ →
  pending_matches_edge (run m0 ops).1 (run m0 ops).2.
Proof.
  intros He. apply (run_ind pending_matches_edge).
  - intros pin. by rewrite He, lookup_empty.
  - intros m log o. apply pending_matches_edge_step.
Qed.

(** X22. In every state reached from a monitor that [__init__] has built, a
    snapshot taken at [now] shows for a monitored line a live high duration
    of [now] minus the time of the line's latest logged edge when that edge
    is a rising one, and of 0 otherwise: after a falling edge, and also for
    a line that has logged no edge, even when it has been high since
    setup. *)
Theorem live_duration_since_rising_edge
    (f : config_file) (src : line_source) (clock : nat → Z)
    (m0 : monitor) (ops : list op) (now pin : Z) :
  GPIOMonitor_init f src clock = Ok m0 →
  pin ∈ pins_to_monitor m0 →
  ∃ ps,
    (get_pin_status now (run m0 ops).1).2 !! pretty pin = Some ps
    ∧ ps_current_high_duration ps
      = match last_edge pin (run m0 ops).2 with
        | Some e => match e_new e with
                    | HIGH => now - e_time e
                    | LOW => 0
                    end
        | None => 0
        end.
Proof.
  intros Hinit Hin.
  destruct (GPIOMonitor_init_fresh _ _ _ _ Hinit) as (_ & _ & He).
  pose proof (run_pending_matches_edge m0 ops He pin) as Hp.
  pose proof (run_tracks_edges m0 ops pin) as Ht.
  assert (Hk : keeps_configuration m0 (run m0 ops).1).
  { apply (run_ind (λ m _, keeps_configuration m0 m)).
    - repeat split; auto.
    - intros m log o. apply keeps_configuration_step. }
  destruct Hk as (Hpins & _).
  destruct (get_pin_status_lookup now (run m0 ops).1 pin) as [Hshow _].
  exists (status_of_pin now (run m0 ops).1 pin).2.
  split; [apply Hshow; by rewrite Hpins |].
  unfold status_of_pin. cbn [snd ps_current_high_duration]. rewrite Hp.
  destruct (last_edge pin (run m0 ops).2) as [e |]; [| done].
  destruct Ht as [Hs _]. destruct (e_new e); [done |].
  by rewrite decide_True.
Qed.

Lemma live_duration_since_rising_edge_witness :
  GPIOMonitor_init (FileParsed example_config) (Simulated (λ _, LOW))
    (λ _, example_day) = Ok (example_monitor LOW)
  ∧ 17 ∈ pins_to_monitor (example_monitor LOW)
  ∧ ∃ ps,
      (get_pin_status (at_time 10 0 5)
         (run (example_monitor LOW)
            [OpSample (at_time 10 0 0) 17 (HwRead HIGH)]).1).2 !! pretty 17
      = Some ps
      ∧ ps_current_high_duration ps = 5 * Datetime.us_per_second.
Proof.
  assert (Hin : 17 ∈ pins_to_monitor (example_monitor LOW)) by (vm_compute; left).
  split; [reflexivity |]. split; [done |].
  destruct (live_duration_since_rising_edge (FileParsed example_config)
              (Simulated (λ _, LOW)) (λ _, example_day) (example_monitor LOW)
              [OpSample (at_time 10 0 0) 17 (HwRead HIGH)] (at_time 10 0 5) 17
              eq_refl Hin) as (ps & Hps & Hd).
  exists ps. split; [done |]. rewrite Hd. reflexivity.
Defined.
